(** * k8s-metrics-collector: the collector, the store and the HTTP handlers

    A shallow embedding of the two Go programs of the repository:

    - [Aggregate]: the one-second collector with cluster-wide aggregates
      (the program whose [MetricsData] has [ClusterCpuUsage] and
      [ClusterTotalCpu]);
    - [Simple]: the thirty-second collector of [main.go], without aggregates.

    Both keep their samples in one SQLite table, [metrics], whose primary key
    is [INTEGER PRIMARY KEY AUTOINCREMENT].  The SQL engine, the Go driver and
    the Kubernetes clients are outside the repository; module [Sqlite] models
    the statements the programs send, and every call that can return an
    [error] in Go takes its outcome as an explicit argument here. *)

From Stdlib Require Import ZArith List String Bool Lia Permutation Sorted.
From Stdlib Require Import QArith Qabs Qpower Lqa.
From Stdlib Require Import Floats.SpecFloat.
Import ListNotations.

Local Open Scope Z_scope.

(** ** Go values *)

(** [int64] arithmetic: Go's [+=] on [int64] wraps around. *)
Module Int64.
Definition modulus : Z := 2 ^ 64.
Definition half : Z := 2 ^ 63.
Definition min_int : Z := - half.
Definition max_int : Z := half - 1.

Definition wrap (z : Z) : Z := (z + half) mod modulus - half.
Definition add (a b : Z) : Z := wrap (a + b).
Definition in_range (z : Z) : Prop := min_int <= z <= max_int.
End Int64.

(** [float64]: IEEE 754 binary64, as the Standard Library specifies it
    (precision 53, infinities at exponent 1024). *)
Module Float64.
Definition prec : Z := 53.
Definition emax : Z := 1024.
Definition float64 : Type := spec_float.

(** The conversion [float64(x)] of an [int64]: round to nearest, ties to
    even. *)
Definition of_int64 (z : Z) : float64 := binary_normalize prec emax z 0 false.
Definition div (x y : float64) : float64 := SFdiv prec emax x y.
Definition mul (x y : float64) : float64 := SFmul prec emax x y.

(** The untyped constant [100] in a [float64] expression. *)
Definition hundred : float64 := of_int64 100.

(** [float64(used) / float64(total) * 100], parsed by Go as
    [(float64(used) / float64(total)) * 100]. *)
Definition percentage (used total : Z) : float64 :=
  mul (div (of_int64 used) (of_int64 total)) hundred.

(** The rational a finite float denotes; [None] for NaN and infinities. *)
Definition to_Q (x : float64) : option Q :=
  match x with
  | S754_zero _ => Some 0%Q
  | S754_finite s m e =>
      let mag := (inject_Z (Zpos m) * Qpower 2 e)%Q in
      Some (if s then Qopp mag else mag)
  | _ => None
  end.

(** [within eps x q]: the float [x] is finite and at most [eps] away from
    the rational [q]. *)
Definition within (eps : Q) (x : float64) (q : Q) : Prop :=
  match to_Q x with
  | Some v => (Qabs (v - q) <= eps)%Q
  | None => False
  end.

(** The three kinds of value: NaN, an infinity, or a number. *)
Definition is_nan (x : float64) : bool :=
  match x with S754_nan => true | _ => false end.

Definition is_inf (x : float64) : bool :=
  match x with S754_infinity _ => true | _ => false end.

Definition is_finite (x : float64) : bool :=
  match x with S754_zero _ | S754_finite _ _ _ => true | _ => false end.

(** [2^e] and the value [m * 2^e] of a positive finite float. *)
Definition pow2 (e : Z) : Q := Qpower 2 e.

Definition F2Q (m : positive) (e : Z) : Q := (inject_Z (Zpos m) * pow2 e)%Q.

(** [r] and [v] lie between two neighbours [a * w] and [(a + 1) * w] of a
    grid whose points have at least 53 bits: [r] is [v] rounded to one of the
    two floats around it. *)
Definition same_cell (r v : Q) : Prop :=
  exists (a : Z) (w : Q),
    (0 < w)%Q /\ 2 ^ 52 <= a
    /\ (inject_Z a * w <= v <= inject_Z (a + 1) * w)%Q
    /\ (inject_Z a * w <= r <= inject_Z (a + 1) * w)%Q.
End Float64.

(** A Go slice declared with [var s []T] is [nil] until the first [append];
    [encoding/json] writes a nil slice as [null] and an allocated one as an
    array. *)
Module GoSlice.
Definition t (A : Type) : Type := option (list A).
Definition nil_slice {A : Type} : t A := None.
Definition append {A : Type} (s : t A) (x : A) : t A :=
  match s with
  | None => Some [x]
  | Some l => Some (l ++ [x])
  end.
End GoSlice.

(** The outcome of a call returning [(T, error)]. *)
Definition result (A : Type) : Type := (string + A)%type.

(** The lines written by [log.Printf], oldest first. *)
Definition Log : Type := list string.
Definition Printf (log : Log) (prefix err : string) : Log :=
  log ++ [String.append prefix err].

(** ** JSON and HTTP responses *)

#[local] Set Warnings "-register-all".
Inductive JSON : Type :=
| JNull
| JBool (b : bool)
| JInt (z : Z)
| JFloat (x : Float64.float64)
| JTime (t : Z)
| JString (s : string)
| JArray (l : list JSON)
| JObject (fields : list (string * JSON)).

(** What a gin handler leaves in the response: [c.Status(code)] sets the
    status only, [c.JSON(code, obj)] also writes the marshalled [obj]. *)
Record Response : Type := mkResponse { status : Z; body : option JSON }.

Definition StatusOK : Z := 200.
Definition StatusCreated : Z := 201.
Definition StatusInternalServerError : Z := 500.

Definition c_Status (code : Z) : Response := mkResponse code None.
Definition c_JSON (code : Z) (obj : JSON) : Response := mkResponse code (Some obj).

(** [gin.H{"error": msg}] *)
Definition error_H (msg : string) : JSON := JObject [("error"%string, JString msg)].

Definition is_error_response (r : Response) : Prop :=
  status r = StatusInternalServerError /\ exists msg, body r = Some (error_H msg).

(** ** The SQLite table *)

Module Sqlite.
Section Table.
(** [D]: the columns of [metrics] other than [id]. *)
Context {D : Type}.

Record Row : Type := mkRow { id : Z; cols : D }.

(** The database file: the rows of [metrics] in rowid order (the order of
    a table scan), and the entry of [sqlite_sequence] for [metrics]
    ([None] while the table has never been written, or after the entry is
    deleted). *)
Record DB : Type := mkDB { rows : list Row; seq : option Z }.

(** What [CREATE TABLE IF NOT EXISTS] leaves on a fresh file. *)
Definition empty : DB := mkDB [] None.

Definition seq_value (db : DB) : Z :=
  match seq db with Some s => s | None => 0 end.

Definition max_rowid (rs : list Row) : Z :=
  fold_right (fun r m => Z.max (id r) m) 0 rs.

(** AUTOINCREMENT: one more than the largest rowid the table ever held,
    which is the larger of the [sqlite_sequence] entry and the largest
    rowid present. *)
Definition next_rowid (db : DB) : Z :=
  Z.max (seq_value db) (max_rowid (rows db)) + 1.

(** The identifier the first insert into a fresh table receives. *)
Definition initial_rowid : Z := next_rowid empty.

(** [INSERT INTO metrics (...) VALUES (...)] *)
Definition insert (d : D) (db : DB) : DB :=
  let i := next_rowid db in
  mkDB (rows db ++ [mkRow i d]) (Some i).

(** [INSERT INTO metrics (...) SELECT ...]: the selected values are
    computed first, then inserted one by one.  When nothing is selected
    the table and the next identifier are what they were; the entry of
    [sqlite_sequence] that SQLite writes with value 0 when there was none
    is not recorded, [seq_value] being 0 in both cases. *)
Definition insert_all (ds : list D) (db : DB) : DB :=
  fold_left (fun acc d => insert d acc) ds db.

(** [DELETE FROM metrics] *)
Definition delete_all (db : DB) : DB := mkDB [] (seq db).

(** [DELETE FROM sqlite_sequence WHERE name='metrics'] *)
Definition delete_sequence (db : DB) : DB := mkDB (rows db) None.

(** [ORDER BY key DESC] over the rows of a scan.  The statement names no
    second key; rows with equal keys stay in scan order, which is what
    the engine's merge sort does. *)
Fixpoint insert_desc (key : Row -> Z) (x : Row) (l : list Row) : list Row :=
  match l with
  | [] => [x]
  | y :: l' =>
      if key y <=? key x then x :: l else y :: insert_desc key x l'
  end.

Definition order_by_desc (key : Row -> Z) (l : list Row) : list Row :=
  fold_right (insert_desc key) [] l.

(** [LIMIT n] *)
Definition limit (n : nat) (l : list Row) : list Row := firstn n l.

(** [WHERE id IN (ids)] *)
Definition where_id_in (ids : list Z) (l : list Row) : list Row :=
  filter (fun r => existsb (Z.eqb (id r)) ids) l.

(** The row stored under an identifier. *)
Definition lookup (i : Z) (db : DB) : option D :=
  option_map cols (find (fun r => id r =? i) (rows db)).

(** [db.Exec(stmt)] outside a transaction: the statement is applied and
    committed, or fails and changes nothing. *)
Definition Exec (stmt : DB -> DB) (err : option string) (db : DB)
  : DB * option string :=
  match err with
  | Some e => (db, Some e)
  | None => (stmt db, None)
  end.

(** A transaction: the state at [Begin] and the state the statements of
    the transaction have produced so far. *)
Record Tx : Type := mkTx { snapshot : DB; working : DB }.

(** [db.Begin()] *)
Definition Begin (err : option string) (db : DB) : result Tx :=
  match err with
  | Some e => inl e
  | None => inr (mkTx db db)
  end.

(** [tx.Exec(stmt)]: a failing statement leaves the transaction open and
    its state as it was. *)
Definition tx_Exec (stmt : DB -> DB) (err : option string) (tx : Tx)
  : Tx * option string :=
  match err with
  | Some e => (tx, Some e)
  | None => (mkTx (snapshot tx) (stmt (working tx)), None)
  end.

(** [tx.Rollback()] *)
Definition Rollback (tx : Tx) : DB := snapshot tx.

(** [tx.Commit()]: when COMMIT fails the driver rolls the transaction
    back before it returns the error. *)
Definition Commit (err : option string) (tx : Tx) : DB * option string :=
  match err with
  | Some e => (snapshot tx, Some e)
  | None => (working tx, None)
  end.

(** The shape every table of this program has: identifiers are positive
    and strictly increasing along the scan, none exceeds the recorded
    sequence, and while the table is not empty the sequence is the
    largest identifier present. *)
Definition wf (db : DB) : Prop :=
  StronglySorted (fun a b => id a < id b) (rows db)
  /\ Forall (fun r => 0 < id r <= seq_value db) (rows db)
  /\ (rows db <> [] -> seq_value db = max_rowid (rows db))
  /\ 0 <= seq_value db.
(** The order of an [ORDER BY key DESC]: keys do not increase. *)
Definition key_desc (key : Row -> Z) (a b : Row) : Prop :=
  key b <= key a.

End Table.
Arguments Row : clear implicits.
Arguments DB : clear implicits.
Arguments Tx : clear implicits.
End Sqlite.

(** ** The collector with cluster-wide aggregates *)

Module Aggregate.
Import Sqlite.
Local Open Scope string_scope.

Record MetricsData : Type := mkMetricsData {
  Timestamp : Z;
  NodeName : string;
  CpuUsage : Float64.float64;
  MemoryUsage : Z;
  IsBenchmark : bool;
  ClusterCpuUsage : Float64.float64;
  ClusterTotalCpu : Z
}.

Definition Store : Type := DB MetricsData.

(** The fields of a sample other than the benchmark flag. *)
Definition same_sample (a b : MetricsData) : Prop :=
  Timestamp a = Timestamp b /\ NodeName a = NodeName b
  /\ CpuUsage a = CpuUsage b /\ MemoryUsage a = MemoryUsage b
  /\ ClusterCpuUsage a = ClusterCpuUsage b
  /\ ClusterTotalCpu a = ClusterTotalCpu b.

(** *** collectMetrics *)

(** One item of [nodes.Items]: the node's name, [Usage.Cpu().MilliValue()]
    and [Usage.Memory().Value()]. *)
Record NodeMetric : Type := mkNodeMetric {
  Name : string;
  UsageCpuMilli : Z;
  UsageMemory : Z
}.

(** What the outside world answers during one tick of the ticker.  The
    calls made inside the two loops are numbered by the position of the
    item in [nodes.Items]. *)
Record Tick : Type := mkTick {
  (** [metricsClient...NodeMetricses().List(...)] *)
  listNodes : result (list NodeMetric);
  (** [kubernetes.NewForConfig(config)] *)
  newClientset : option string;
  (** [clientset.CoreV1().Nodes().Get(...)] in the first loop, reduced to
      [node.Status.Capacity.Cpu().MilliValue()] *)
  getNodeFirst : nat -> result Z;
  (** the same call in the second loop *)
  getNodeSecond : nat -> result Z;
  (** [time.Now()] at the insert of the item *)
  timeNow : nat -> Z;
  (** the error of [db.Exec(INSERT ...)] for the item, if any *)
  insertErr : nat -> option string
}.

(** First pass: gather cluster totals. *)
Fixpoint firstPass (get : nat -> result Z) (i : nat) (items : list NodeMetric)
    (clusterTotalCPU clusterUsedCPU : Z) (log : Log)
  : Z * Z * Log :=
  match items with
  | [] => (clusterTotalCPU, clusterUsedCPU, log)
  | nodeMetric :: rest =>
      match get i with
      | inl err =>
          firstPass get (S i) rest clusterTotalCPU clusterUsedCPU
            (Printf log "Error getting node info: " err)
      | inr capacity =>
          firstPass get (S i) rest
            (Int64.add clusterTotalCPU capacity)
            (Int64.add clusterUsedCPU (UsageCpuMilli nodeMetric))
            log
      end
  end.

(** The sample the second loop binds to the INSERT statement. *)
Definition sample (now : Z) (nodeMetric : NodeMetric) (nodeTotalCPU : Z)
    (clusterCpuPercentage : Float64.float64) (clusterTotalCPU : Z)
  : MetricsData :=
  mkMetricsData now (Name nodeMetric)
    (Float64.percentage (UsageCpuMilli nodeMetric) nodeTotalCPU)
    (UsageMemory nodeMetric)
    false
    clusterCpuPercentage
    clusterTotalCPU.

(** Second pass: store metrics with cluster-wide information. *)
Fixpoint secondPass (t : Tick) (i : nat) (items : list NodeMetric)
    (clusterCpuPercentage : Float64.float64) (clusterTotalCPU : Z)
    (db : Store) (log : Log) : Store * Log :=
  match items with
  | [] => (db, log)
  | nodeMetric :: rest =>
      match getNodeSecond t i with
      | inl _ =>
          secondPass t (S i) rest clusterCpuPercentage clusterTotalCPU db log
      | inr nodeTotalCPU =>
          let m := sample (timeNow t i) nodeMetric nodeTotalCPU
                     clusterCpuPercentage clusterTotalCPU in
          let '(db', err) := Exec (insert m) (insertErr t i) db in
          let log' :=
            match err with
            | Some e => Printf log "Error inserting metrics: " e
            | None => log
            end in
          secondPass t (S i) rest clusterCpuPercentage clusterTotalCPU db' log'
      end
  end.

(** The body of [for range ticker.C]: one collection cycle.  It returns the
    store and the lines given to [log.Printf]. *)
Definition collectCycle (t : Tick) (db : Store) : Store * Log :=
  match listNodes t with
  | inl err => (db, Printf [] "Error collecting metrics: " err)
  | inr items =>
      match newClientset t with
      | Some err => (db, Printf [] "Error creating clientset: " err)
      | None =>
          let '(clusterTotalCPU, clusterUsedCPU, log) :=
            firstPass (getNodeFirst t) 0 items 0 0 [] in
          let clusterCpuPercentage :=
            Float64.percentage clusterUsedCPU clusterTotalCPU in
          secondPass t 0 items clusterCpuPercentage clusterTotalCPU db log
      end
  end.

(** [collectMetrics]: the loop over the ticks the process lives through. *)
Fixpoint collectMetrics (ticks : list Tick) (db : Store) (log : Log)
  : Store * Log :=
  match ticks with
  | [] => (db, log)
  | t :: rest =>
      let '(db', lines) := collectCycle t db in
      collectMetrics rest db' (log ++ lines)%list
  end.

(** *** getMetrics *)

(** The struct tags of [MetricsData]. *)
Definition marshal (m : MetricsData) : JSON :=
  JObject [ ("timestamp", JTime (Timestamp m));
            ("node_name", JString (NodeName m));
            ("cpu_usage", JFloat (CpuUsage m));
            ("memory_usage", JInt (MemoryUsage m));
            ("is_benchmark", JBool (IsBenchmark m));
            ("cluster_cpu_usage", JFloat (ClusterCpuUsage m));
            ("cluster_total_cpu", JInt (ClusterTotalCpu m)) ].

Definition marshal_slice (s : GoSlice.t MetricsData) : JSON :=
  match s with
  | None => JNull
  | Some l => JArray (map marshal l)
  end.

(** [SELECT ... FROM metrics ORDER BY timestamp DESC] *)
Definition select_all (db : Store) : list (Row MetricsData) :=
  order_by_desc (fun r => Timestamp (cols r)) (rows db).

(** The columns [cpu_usage] and [cluster_cpu_usage] are REAL.  The driver
    binds a [float64] as a double, and SQLite keeps NULL for a double that is
    NaN.  A row of the model keeps the value that was bound: a NaN in it
    stands for the NULL the table holds. *)
Definition is_null (x : Float64.float64) : bool := Float64.is_nan x.

(** The double quote that [%q] puts around a column name. *)
Definition quote : string :=
  String (Ascii.Ascii false true false false false true false false) EmptyString.

(** The error of [rows.Scan] when the column at [index] holds NULL and its
    destination is a [*float64]. *)
Definition scan_null_error (index name : string) : string :=
  "sql: Scan error on column index " ++ index ++ ", name "
  ++ quote ++ name ++ quote
  ++ ": converting NULL to float64 is unsupported".

(** [rows.Scan(&m.Timestamp, &m.NodeName, &m.CpuUsage, &m.MemoryUsage,
     &m.IsBenchmark, &m.ClusterCpuUsage, &m.ClusterTotalCpu)] on one row.
    [err] is the error the call reports for a reason outside the row, if
    any; otherwise the columns are converted from left to right, and the
    first NULL met in a REAL column is an error. *)
Definition Scan (err : option string) (r : Row MetricsData)
  : result MetricsData :=
  match err with
  | Some e => inl e
  | None =>
      if is_null (CpuUsage (cols r)) then
        inl (scan_null_error "2" "cpu_usage")
      else if is_null (ClusterCpuUsage (cols r)) then
        inl (scan_null_error "5" "cluster_cpu_usage")
      else inr (cols r)
  end.

(** [for rows.Next() { rows.Scan(...); metrics = append(metrics, m) }];
    [scanErr i] is the error of the [i]-th [Scan] that does not come from
    the row, if any. *)
Fixpoint scanRows (scanErr : nat -> option string) (i : nat)
    (rs : list (Row MetricsData)) (metrics : GoSlice.t MetricsData)
  : result (GoSlice.t MetricsData) :=
  match rs with
  | [] => inr metrics
  | r :: rest =>
      match Scan (scanErr i) r with
      | inl e => inl e
      | inr m => scanRows scanErr (S i) rest (GoSlice.append metrics m)
      end
  end.

(** [encoding/json] has no encoding for a [float64] that is infinite or
    NaN: [json.Marshal] returns an error for a struct that holds one. *)
Definition unsupported_value (m : MetricsData) : bool :=
  negb (Float64.is_finite (CpuUsage m))
  || negb (Float64.is_finite (ClusterCpuUsage m)).

Definition marshal_fails (s : GoSlice.t MetricsData) : bool :=
  match s with
  | None => false
  | Some l => existsb unsupported_value l
  end.

(** [c.JSON(code, metrics)]: the status is set first, then the slice is
    marshalled and written.  When [json.Marshal] fails nothing is written:
    the response leaves with the status and an empty body. *)
Definition c_JSON_metrics (code : Z) (metrics : GoSlice.t MetricsData)
  : Response :=
  if marshal_fails metrics then c_Status code
  else c_JSON code (marshal_slice metrics).

Definition getMetrics (queryErr : option string) (scanErr : nat -> option string)
    (db : Store) : Response :=
  match queryErr with
  | Some e => c_JSON StatusInternalServerError (error_H e)
  | None =>
      match scanRows scanErr 0 (select_all db) GoSlice.nil_slice with
      | inl e => c_JSON StatusInternalServerError (error_H e)
      | inr metrics => c_JSON_metrics StatusOK metrics
      end
  end.

(** *** startBenchmark *)

(** [SELECT id FROM metrics WHERE is_benchmark = 0
     ORDER BY timestamp DESC LIMIT 1] *)
Definition benchmark_source_ids (db : Store) : list Z :=
  map id
    (limit 1
       (order_by_desc (fun r => Timestamp (cols r))
          (filter (fun r => negb (IsBenchmark (cols r))) (rows db)))).

(** The rows the outer SELECT reads. *)
Definition benchmark_sources (db : Store) : list (Row MetricsData) :=
  where_id_in (benchmark_source_ids db) (rows db).

(** [SELECT timestamp, node_name, cpu_usage, memory_usage, 1,
     cluster_cpu_usage, cluster_total_cpu] *)
Definition as_benchmark (m : MetricsData) : MetricsData :=
  mkMetricsData (Timestamp m) (NodeName m) (CpuUsage m) (MemoryUsage m)
    true (ClusterCpuUsage m) (ClusterTotalCpu m).

Definition insert_benchmark (db : Store) : Store :=
  insert_all (map (fun r => as_benchmark (cols r)) (benchmark_sources db)) db.

Definition startBenchmark (execErr : option string) (db : Store)
  : Store * Response :=
  let '(db', err) := Exec insert_benchmark execErr db in
  match err with
  | Some e => (db', c_JSON StatusInternalServerError (error_H e))
  | None => (db', c_Status StatusCreated)
  end.

(** *** resetDB *)

(** The errors the four database calls of [resetDB] return, if any. *)
Record ResetErrors : Type := mkResetErrors {
  beginErr : option string;
  deleteErr : option string;
  sequenceErr : option string;
  commitErr : option string
}.

Definition no_reset_error (f : ResetErrors) : bool :=
  match beginErr f, deleteErr f, sequenceErr f, commitErr f with
  | None, None, None, None => true
  | _, _, _, _ => false
  end.

Definition resetDB (f : ResetErrors) (db : Store) : Store * Response :=
  match Begin (beginErr f) db with
  | inl e =>
      (db, c_JSON StatusInternalServerError
             (error_H ("Failed to start transaction: " ++ e)))
  | inr tx =>
      let '(tx1, err1) := tx_Exec delete_all (deleteErr f) tx in
      match err1 with
      | Some e =>
          (Rollback tx1,
           c_JSON StatusInternalServerError
             (error_H ("Failed to delete records: " ++ e)))
      | None =>
          let '(tx2, err2) := tx_Exec delete_sequence (sequenceErr f) tx1 in
          match err2 with
          | Some e =>
              (Rollback tx2,
               c_JSON StatusInternalServerError
                 (error_H ("Failed to reset sequence: " ++ e)))
          | None =>
              let '(db', err3) := Commit (commitErr f) tx2 in
              match err3 with
              | Some e =>
                  (db', c_JSON StatusInternalServerError
                          (error_H ("Failed to commit transaction: " ++ e)))
              | None => (db', c_Status StatusOK)
              end
          end
      end
  end.

(** *** The operations on the store *)

Inductive Op : Type :=
| OpCycle (t : Tick)
| OpGetMetrics (queryErr : option string) (scanErr : nat -> option string)
| OpStartBenchmark (execErr : option string)
| OpResetDB (f : ResetErrors).

Definition step (op : Op) (db : Store) : Store :=
  match op with
  | OpCycle t => fst (collectCycle t db)
  | OpGetMetrics _ _ => db
  | OpStartBenchmark e => fst (startBenchmark e db)
  | OpResetDB f => fst (resetDB f db)
  end.

(** The store after a history of operations, oldest first. *)
Definition run (history : list Op) (db : Store) : Store :=
  fold_left (fun acc op => step op acc) history db.

Definition is_reset (op : Op) : bool :=
  match op with OpResetDB _ => true | _ => false end.

(** *** The handlers beside the collector *)

(** [main] starts the collector with [go collectMetrics(config)] and then
    serves three routes.  A request is handled while a cycle runs: its
    statement (for [resetDB], its transaction) is applied between two
    statements of the cycle. *)
Inductive Request : Type :=
| GetMetrics (queryErr : option string) (scanErr : nat -> option string)
| PostBenchmark (execErr : option string)
| PostReset (f : ResetErrors).

(** [router.GET("/metrics", getMetrics)],
    [router.POST("/metrics/benchmark", startBenchmark)],
    [router.POST("/metrics/reset", resetDB)] *)
Definition serve (req : Request) (db : Store) : Store * Response :=
  match req with
  | GetMetrics queryErr scanErr => (db, getMetrics queryErr scanErr db)
  | PostBenchmark execErr => startBenchmark execErr db
  | PostReset f => resetDB f db
  end.

Definition serveAll (reqs : list Request) (db : Store) : Store :=
  fold_left (fun acc req => fst (serve req acc)) reqs db.

(** The routes whose handler sends a statement that writes. *)
Definition writes (req : Request) : bool :=
  match req with GetMetrics _ _ => false | _ => true end.

(** The second pass with the requests that are handled while it runs:
    [arrivals i] are those handled after the insert of the item before
    item [i] (for the first item, since the cycle began) and before the
    insert of item [i]. *)
Fixpoint secondPassBeside (t : Tick) (arrivals : nat -> list Request)
    (i : nat) (items : list NodeMetric)
    (clusterCpuPercentage : Float64.float64) (clusterTotalCPU : Z)
    (db : Store) (log : Log) : Store * Log :=
  match items with
  | [] => (db, log)
  | nodeMetric :: rest =>
      let db := serveAll (arrivals i) db in
      match getNodeSecond t i with
      | inl _ =>
          secondPassBeside t arrivals (S i) rest
            clusterCpuPercentage clusterTotalCPU db log
      | inr nodeTotalCPU =>
          let m := sample (timeNow t i) nodeMetric nodeTotalCPU
                     clusterCpuPercentage clusterTotalCPU in
          let '(db', err) := Exec (insert m) (insertErr t i) db in
          let log' :=
            match err with
            | Some e => Printf log "Error inserting metrics: " e
            | None => log
            end in
          secondPassBeside t arrivals (S i) rest
            clusterCpuPercentage clusterTotalCPU db' log'
      end
  end.

(** One cycle of the collector with the requests handled while it runs. *)
Definition collectCycleBeside (t : Tick) (arrivals : nat -> list Request)
    (db : Store) : Store * Log :=
  match listNodes t with
  | inl err => (db, Printf [] "Error collecting metrics: " err)
  | inr items =>
      match newClientset t with
      | Some err => (db, Printf [] "Error creating clientset: " err)
      | None =>
          let '(clusterTotalCPU, clusterUsedCPU, log) :=
            firstPass (getNodeFirst t) 0 items 0 0 [] in
          let clusterCpuPercentage :=
            Float64.percentage clusterUsedCPU clusterTotalCPU in
          secondPassBeside t arrivals 0 items
            clusterCpuPercentage clusterTotalCPU db log
      end
  end.
End Aggregate.

(** ** The collector of [main.go], without aggregates *)

Module Simple.
Import Sqlite.
Local Open Scope string_scope.

Record MetricsData : Type := mkMetricsData {
  Timestamp : Z;
  NodeName : string;
  CpuUsage : Z;
  MemoryUsage : Z;
  IsBenchmark : bool
}.

Definition Store : Type := DB MetricsData.

Record NodeMetric : Type := mkNodeMetric {
  Name : string;
  UsageCpuMilli : Z;
  UsageMemory : Z
}.

Record Tick : Type := mkTick {
  listNodes : result (list NodeMetric);
  timeNow : nat -> Z;
  insertErr : nat -> option string
}.

(** [for _, node := range nodes.Items { db.Exec(INSERT ...) }] *)
Fixpoint insertNodes (t : Tick) (i : nat) (items : list NodeMetric)
    (db : Store) (log : Log) : Store * Log :=
  match items with
  | [] => (db, log)
  | node :: rest =>
      let m := mkMetricsData (timeNow t i) (Name node) (UsageCpuMilli node)
                 (UsageMemory node) false in
      let '(db', err) := Exec (insert m) (insertErr t i) db in
      let log' :=
        match err with
        | Some e => Printf log "Error inserting metrics: " e
        | None => log
        end in
      insertNodes t (S i) rest db' log'
  end.

Definition collectCycle (t : Tick) (db : Store) : Store * Log :=
  match listNodes t with
  | inl err => (db, Printf [] "Error collecting metrics: " err)
  | inr items => insertNodes t 0 items db []
  end.

(** [SELECT id FROM metrics ORDER BY timestamp DESC LIMIT 1] *)
Definition benchmark_source_ids (db : Store) : list Z :=
  map id (limit 1 (order_by_desc (fun r => Timestamp (cols r)) (rows db))).

Definition as_benchmark (m : MetricsData) : MetricsData :=
  mkMetricsData (Timestamp m) (NodeName m) (CpuUsage m) (MemoryUsage m) true.

Definition insert_benchmark (db : Store) : Store :=
  insert_all
    (map (fun r => as_benchmark (cols r))
       (where_id_in (benchmark_source_ids db) (rows db)))
    db.

Definition startBenchmark (execErr : option string) (db : Store)
  : Store * Response :=
  let '(db', err) := Exec insert_benchmark execErr db in
  match err with
  | Some e => (db', c_JSON StatusInternalServerError (error_H e))
  | None => (db', c_Status StatusCreated)
  end.

(** [resetDB]: one [db.Exec("DELETE FROM metrics")], no transaction and no
    statement on [sqlite_sequence]. *)
Definition resetDB (execErr : option string) (db : Store) : Store * Response :=
  let '(db', err) := Exec delete_all execErr db in
  match err with
  | Some e => (db', c_JSON StatusInternalServerError (error_H e))
  | None => (db', c_Status StatusOK)
  end.

Inductive Op : Type :=
| OpCycle (t : Tick)
| OpStartBenchmark (execErr : option string)
| OpResetDB (execErr : option string).

Definition step (op : Op) (db : Store) : Store :=
  match op with
  | OpCycle t => fst (collectCycle t db)
  | OpStartBenchmark e => fst (startBenchmark e db)
  | OpResetDB e => fst (resetDB e db)
  end.

Definition run (history : list Op) (db : Store) : Store :=
  fold_left (fun acc op => step op acc) history db.
(** The struct tags of [MetricsData] in [main.go]. *)
Definition marshal (m : MetricsData) : JSON :=
  JObject [ ("timestamp", JTime (Timestamp m));
            ("node_name", JString (NodeName m));
            ("cpu_usage", JInt (CpuUsage m));
            ("memory_usage", JInt (MemoryUsage m));
            ("is_benchmark", JBool (IsBenchmark m)) ].

Definition marshal_slice (s : GoSlice.t MetricsData) : JSON :=
  match s with
  | None => JNull
  | Some l => JArray (map marshal l)
  end.

(** [SELECT timestamp, node_name, cpu_usage, memory_usage, is_benchmark
     FROM metrics ORDER BY timestamp DESC] *)
Definition select_all (db : Store) : list (Row MetricsData) :=
  order_by_desc (fun r => Timestamp (cols r)) (rows db).

(** [for rows.Next() { rows.Scan(...); metrics = append(metrics, m) }] *)
Fixpoint scanRows (scanErr : nat -> option string) (i : nat)
    (rs : list (Row MetricsData)) (metrics : GoSlice.t MetricsData)
  : result (GoSlice.t MetricsData) :=
  match rs with
  | [] => inr metrics
  | r :: rest =>
      match scanErr i with
      | Some e => inl e
      | None => scanRows scanErr (S i) rest (GoSlice.append metrics (cols r))
      end
  end.

Definition getMetrics (queryErr : option string) (scanErr : nat -> option string)
    (db : Store) : Response :=
  match queryErr with
  | Some e => c_JSON StatusInternalServerError (error_H e)
  | None =>
      match scanRows scanErr 0 (select_all db) GoSlice.nil_slice with
      | inl e => c_JSON StatusInternalServerError (error_H e)
      | inr metrics => c_JSON StatusOK (marshal_slice metrics)
      end
  end.
End Simple.

(** ** The vocabulary of the properties *)

Module Spec.
Import Sqlite Aggregate.

Definition by_timestamp (r : Row MetricsData) : Z := Timestamp (cols r).
Definition organic (r : Row MetricsData) : bool := negb (IsBenchmark (cols r)).

(** The row the inner SELECT of [startBenchmark] picks, if any. *)
Definition selected (db : Store) : option (Row MetricsData) :=
  hd_error (order_by_desc by_timestamp (filter organic (rows db))).

(** The most recently inserted row whose flag is false: the last such row
    of the scan, which has the largest identifier. *)
Definition most_recent_organic (db : Store) : option (Row MetricsData) :=
  hd_error (rev (filter organic (rows db))).

(** The order C6 describes: newer timestamp first, and among equal
    timestamps the larger identifier first. *)
Definition newest_first (a b : Row MetricsData) : Prop :=
  Timestamp (cols b) < Timestamp (cols a)
  \/ (Timestamp (cols b) = Timestamp (cols a) /\ id b < id a).

(** The order the statement asks for: timestamps do not increase. *)
Definition timestamp_desc (a b : Row MetricsData) : Prop :=
  Timestamp (cols b) <= Timestamp (cols a).

(** The body [c.JSON] writes for the scanned rows. *)
Definition rows_json (rs : list (Row MetricsData)) : JSON :=
  match rs with
  | [] => JNull
  | _ => JArray (map (fun r => marshal (cols r)) rs)
  end.

(** A row whose two percentages are numbers: neither NaN (NULL in the
    table) nor infinite. *)
Definition finite_row (r : Row MetricsData) : bool :=
  Float64.is_finite (CpuUsage (cols r))
  && Float64.is_finite (ClusterCpuUsage (cols r)).

(** A row that holds NULL in one of its REAL columns. *)
Definition null_row (r : Row MetricsData) : bool :=
  is_null (CpuUsage (cols r)) || is_null (ClusterCpuUsage (cols r)).

(** No request handled during the cycle writes. *)
Definition reads_only (arrivals : nat -> list Request) : Prop :=
  forall i, existsb writes (arrivals i) = false.

(** The nodes a pass resolves: the items whose capacity lookup succeeded,
    in the order of [nodes.Items], each with the capacity returned. *)
Fixpoint resolved (get : nat -> result Z) (i : nat) (items : list NodeMetric)
  : list (NodeMetric * Z) :=
  match items with
  | [] => []
  | nodeMetric :: rest =>
      match get i with
      | inl _ => resolved get (S i) rest
      | inr capacity => (nodeMetric, capacity) :: resolved get (S i) rest
      end
  end.

Definition sum_capacity (l : list (NodeMetric * Z)) : Z :=
  fold_right (fun p acc => snd p + acc) 0 l.

Definition sum_used (l : list (NodeMetric * Z)) : Z :=
  fold_right (fun p acc => UsageCpuMilli (fst p) + acc) 0 l.

(** The lines the first pass logs. *)
Fixpoint lookup_errors (get : nat -> result Z) (i : nat)
    (items : list NodeMetric) : Log :=
  match items with
  | [] => []
  | _ :: rest =>
      match get i with
      | inl err => Printf [] "Error getting node info: " err
                     ++ lookup_errors get (S i) rest
      | inr _ => lookup_errors get (S i) rest
      end
  end.

(** The samples of the items whose own second lookup and own insert both
    succeeded. *)
Fixpoint stored (t : Tick) (i : nat) (items : list NodeMetric)
    (clusterCpuPercentage : Float64.float64) (clusterTotalCPU : Z)
  : list MetricsData :=
  match items with
  | [] => []
  | nodeMetric :: rest =>
      let tail := stored t (S i) rest clusterCpuPercentage clusterTotalCPU in
      match getNodeSecond t i, insertErr t i with
      | inr capacity, None =>
          sample (timeNow t i) nodeMetric capacity
            clusterCpuPercentage clusterTotalCPU :: tail
      | _, _ => tail
      end
  end.

(** The aggregate of a cycle: the wrapped sums over the nodes the first
    pass resolved. *)
Definition clusterTotal (t : Tick) (items : list NodeMetric) : Z :=
  Int64.wrap (sum_capacity (resolved (getNodeFirst t) 0 items)).

Definition clusterUsed (t : Tick) (items : list NodeMetric) : Z :=
  Int64.wrap (sum_used (resolved (getNodeFirst t) 0 items)).

(** The samples a tick leaves in the table: none when the listing or the
    creation of the client fails, otherwise those of the items whose own
    second lookup and own insert succeeded, with the aggregate of the tick. *)
Definition written (t : Tick) : list MetricsData :=
  match listNodes t, newClientset t with
  | inr items, None =>
      stored t 0 items
        (Float64.percentage (clusterUsed t items) (clusterTotal t items))
        (clusterTotal t items)
  | _, _ => []
  end.

(** A stored sample belongs to a resolved node and carries the aggregate. *)
Definition sample_of (clusterCpuPercentage : Float64.float64)
    (clusterTotalCPU : Z) (m : MetricsData) (node : NodeMetric * Z) : Prop :=
  NodeName m = Name (fst node)
  /\ CpuUsage m = Float64.percentage (UsageCpuMilli (fst node)) (snd node)
  /\ MemoryUsage m = UsageMemory (fst node)
  /\ IsBenchmark m = false
  /\ ClusterCpuUsage m = clusterCpuPercentage
  /\ ClusterTotalCpu m = clusterTotalCPU.

(** The tolerance of the numeric properties. *)
Definition tolerance : Q := 1 # 1000000000.

(** The exact percentage [100 * used / capacity]. *)
Definition exact_percentage (used capacity : Z) : Q :=
  (100 * inject_Z used / inject_Z capacity)%Q.

(** Millicore values a cluster can report: a positive capacity, both values
    below [2^53], and a usage of at most a thousand times the capacity. *)
Definition realistic (used capacity : Z) : Prop :=
  0 <= used < 2 ^ 53 /\ 0 < capacity < 2 ^ 53 /\ used <= 1000 * capacity.
(** The lines the second pass logs: one per failed insert; a failed lookup
    of the second pass logs nothing. *)
Fixpoint insert_errors (t : Tick) (i : nat) (items : list NodeMetric) : Log :=
  match items with
  | [] => []
  | _ :: rest =>
      match getNodeSecond t i, insertErr t i with
      | inr _, Some e =>
          Printf [] "Error inserting metrics: " e ++ insert_errors t (S i) rest
      | _, _ => insert_errors t (S i) rest
      end
  end.

(** [n] consecutive identifiers starting at [from]. *)
Fixpoint consecutive (from : Z) (n : nat) : list Z :=
  match n with
  | O => []
  | S n' => from :: consecutive (from + 1) n'
  end.

(** The ticks that get past the two [continue] statements at the head of the
    loop body. *)
Definition listing_ok (t : Tick) : bool :=
  match listNodes t, newClientset t with
  | inr _, None => true
  | _, _ => false
  end.

(** Every row flagged as benchmark has a row flagged as organic with the
    same sample and a smaller identifier. *)
Definition benchmarks_have_sources (db : Store) : Prop :=
  forall r, In r (rows db) -> IsBenchmark (cols r) = true ->
    exists src, In src (rows db) /\ IsBenchmark (cols src) = false
                /\ same_sample (cols r) (cols src) /\ id src < id r.
End Spec.

(** The vocabulary of the properties of [main.go]. *)
Module SimpleSpec.
Import Sqlite Simple.

(** The samples of the items whose insert succeeded. *)
Fixpoint stored (t : Tick) (i : nat) (items : list NodeMetric)
  : list MetricsData :=
  match items with
  | [] => []
  | node :: rest =>
      match insertErr t i with
      | None =>
          mkMetricsData (timeNow t i) (Name node) (UsageCpuMilli node)
            (UsageMemory node) false :: stored t (S i) rest
      | Some _ => stored t (S i) rest
      end
  end.

(** The lines the loop logs: one per failed insert. *)
Fixpoint insert_errors (t : Tick) (i : nat) (items : list NodeMetric) : Log :=
  match items with
  | [] => []
  | _ :: rest =>
      match insertErr t i with
      | Some e =>
          Printf [] "Error inserting metrics: " e ++ insert_errors t (S i) rest
      | None => insert_errors t (S i) rest
      end
  end.

(** The body [c.JSON] writes for the scanned rows. *)
Definition rows_json (rs : list (Row MetricsData)) : JSON :=
  match rs with
  | [] => JNull
  | _ => JArray (map (fun r => marshal (cols r)) rs)
  end.
End SimpleSpec.

(** ** Concrete ticks and stores *)

(** The store of the counterexample to C3: two cycles, one node each, the
    wall clock set back between them. *)
Module ClockSetBack.
Import Sqlite Aggregate.
Local Open Scope string_scope.

Definition tick (name : string) (now : Z) : Tick :=
  mkTick (inr [mkNodeMetric name 500 4096]) None
    (fun _ => inr 1000) (fun _ => inr 1000) (fun _ => now) (fun _ => None).

Definition store : Store :=
  run [OpCycle (tick "a" 20); OpCycle (tick "b" 10)] empty.
End ClockSetBack.

(** The store of the counterexample to C6: one cycle with one node, then one
    benchmark snapshot, which carries the timestamp of the row it copies. *)
Module SnapshotTie.
Import Sqlite Aggregate.
Local Open Scope string_scope.

Definition tick : Tick :=
  mkTick (inr [mkNodeMetric "a" 500 4096]) None
    (fun _ => inr 1000) (fun _ => inr 1000) (fun _ => 20) (fun _ => None).

Definition store : Store := run [OpCycle tick; OpStartBenchmark None] empty.
End SnapshotTie.

(** The tick of the counterexample to C4: two nodes; the first lookup of the
    second node fails, its second lookup succeeds. *)
Module LateNode.
Import Sqlite Aggregate.
Local Open Scope string_scope.

Definition items : list NodeMetric :=
  [mkNodeMetric "a" 500 4096; mkNodeMetric "b" 500 8192].

Definition tick : Tick :=
  mkTick (inr items) None
    (fun i => match i with O => inr 1000 | _ => inl "timeout" end)
    (fun i => match i with O => inr 1000 | _ => inr 2000 end)
    (fun i => 20 + Z.of_nat i) (fun _ => None).
End LateNode.

(** The tick of the counterexample to C5: one node, whose first lookup fails
    and whose second lookup succeeds. *)
Module EmptyAggregate.
Import Sqlite Aggregate.
Local Open Scope string_scope.

Definition items : list NodeMetric := [mkNodeMetric "a" 500 4096].

Definition tick : Tick :=
  mkTick (inr items) None
    (fun _ => inl "timeout") (fun _ => inr 1000)
    (fun _ => 20) (fun _ => None).

(** The table after that cycle: one row, whose aggregate is NaN. *)
Definition store : Store := run [OpCycle tick] empty.
End EmptyAggregate.

(** One node that reports a capacity of zero millicores while it uses 500:
    both percentages of its row are [+Inf]. *)
Module ZeroCapacity.
Import Sqlite Aggregate.
Local Open Scope string_scope.

Definition tick : Tick :=
  mkTick (inr [mkNodeMetric "a" 500 4096]) None
    (fun _ => inr 0) (fun _ => inr 0) (fun _ => 20) (fun _ => None).

Definition store : Store := run [OpCycle tick] empty.
End ZeroCapacity.

(** Requests handled between the two inserts of a cycle with two nodes. *)
Module DuringCycle.
Import Sqlite Aggregate.

Definition between (reqs : list Request) (i : nat) : list Request :=
  match i with 1%nat => reqs | _ => [] end.

Definition read : nat -> list Request :=
  between [GetMetrics None (fun _ => None)].

Definition snapshot : nat -> list Request := between [PostBenchmark None].

Definition reset : nat -> list Request :=
  between [PostReset (mkResetErrors None None None None)].
End DuringCycle.

(** The scenario of two nodes with capacities 1000 and 2000 millicores, each
    using 500, every call succeeding. *)
Module TwoNodes.
Import Sqlite Aggregate.
Local Open Scope string_scope.

Definition items : list NodeMetric :=
  [mkNodeMetric "a" 500 4096; mkNodeMetric "b" 500 8192].

Definition capacity (i : nat) : result Z :=
  match i with O => inr 1000 | _ => inr 2000 end.

Definition tick : Tick :=
  mkTick (inr items) None capacity capacity
    (fun i => 20 + Z.of_nat i) (fun _ => None).

Definition store : Store := run [OpCycle tick] empty.

(** The same tick with the cluster unreachable for every capacity lookup. *)
Definition unreachable : Tick :=
  mkTick (inr items) None (fun _ => inl "timeout") (fun _ => inl "timeout")
    (fun i => 20 + Z.of_nat i) (fun _ => None).
End TwoNodes.

(** A store of the collector of [main.go] after one cycle with two nodes. *)
Module SimpleTwoNodes.
Import Sqlite Simple.
Local Open Scope string_scope.

Definition tick : Tick :=
  mkTick (inr [mkNodeMetric "a" 500 4096; mkNodeMetric "b" 700 8192])
    (fun _ => 20) (fun _ => None).

Definition history : list Op := [OpCycle tick].

Definition store : Store := run history empty.
End SimpleTwoNodes.

(** A tick of the aggregate collector with three nodes: the first lookup of
    the first node fails, the second lookup of the second node fails, and
    the insert of the third node fails. *)
Module Flaky.
Import Sqlite Aggregate.
Local Open Scope string_scope.

Definition items : list NodeMetric :=
  [mkNodeMetric "a" 500 4096; mkNodeMetric "b" 300 8192;
   mkNodeMetric "c" 100 2048].

Definition tick : Tick :=
  mkTick (inr items) None
    (fun i => match i with O => inl "timeout" | _ => inr 1000 end)
    (fun i => match i with 1%nat => inl "gone" | _ => inr 1000 end)
    (fun i => 20 + Z.of_nat i)
    (fun i => match i with 2%nat => Some "disk full" | _ => None end).
End Flaky.

(** * Properties *)

(** ** Facts about [float64] *)

Module Float64Facts.
Import Float64.

(** *** Digits and shifts *)

(** A positive number of [d] binary digits lies in [[2^(d-1), 2^d)]. *)
Lemma digits2_pos_bounds (p : positive) :
  2 ^ (Zpos (digits2_pos p) - 1) <= Zpos p < 2 ^ Zpos (digits2_pos p).
Proof.
  induction p as [p IH|p IH|]; simpl digits2_pos.
  - rewrite Pos2Z.inj_succ.
    replace (Z.succ (Zpos (digits2_pos p)) - 1) with (Z.succ (Zpos (digits2_pos p) - 1)) by lia.
    rewrite !Z.pow_succ_r by lia. lia.
  - rewrite Pos2Z.inj_succ.
    replace (Z.succ (Zpos (digits2_pos p)) - 1) with (Z.succ (Zpos (digits2_pos p) - 1)) by lia.
    rewrite !Z.pow_succ_r by lia. lia.
  - simpl. lia.
Qed.

Lemma digits2_pos_unique (p : positive) (k : Z) :
  2 ^ (k - 1) <= Zpos p < 2 ^ k -> Zpos (digits2_pos p) = k.
Proof.
  intros [Hlo Hhi]. pose proof (digits2_pos_bounds p) as [Blo Bhi].
  assert (0 < k).
  { destruct (Z_lt_le_dec 0 k) as [|Hk]; [assumption|].
    destruct (Z.eq_dec k 0) as [->|]; [simpl in Hhi; lia|].
    rewrite Z.pow_neg_r in Hhi by lia. lia. }
  set (d := Zpos (digits2_pos p)) in *.
  destruct (Z.lt_trichotomy d k) as [Hlt|[Heq|Hgt]]; [|exact Heq|].
  - assert (2 ^ d <= 2 ^ (k - 1)) by (apply Z.pow_le_mono_r; lia). lia.
  - assert (2 ^ k <= 2 ^ (d - 1)) by (apply Z.pow_le_mono_r; lia). lia.
Qed.

(** One step of the rounding shift halves the mantissa. *)
Lemma shr_m_shr_1 mrs : 0 <= shr_m mrs -> shr_m (shr_1 mrs) = shr_m mrs / 2.
Proof.
  destruct mrs as [m r s]; simpl. intros Hm.
  destruct m as [|[p|p|]|p].
  - reflexivity.
  - change (Z.pos p = Z.pos p~1 / 2).
    apply Z.div_unique with (r := 1); lia.
  - change (Z.pos p = Z.pos p~0 / 2).
    apply Z.div_unique with (r := 0); lia.
  - reflexivity.
  - lia.
Qed.

Lemma shr_m_shr_1_nonneg mrs : 0 <= shr_m mrs -> 0 <= shr_m (shr_1 mrs).
Proof.
  intros H. rewrite shr_m_shr_1 by exact H. apply Z.div_pos; lia.
Qed.

Lemma shr_m_iter (p : positive) :
  forall mrs, 0 <= shr_m mrs ->
    shr_m (iter_pos shr_1 p mrs) = shr_m mrs / 2 ^ Zpos p.
Proof.
  induction p as [p IH|p IH|]; intros mrs Hm; simpl iter_pos.
  - assert (0 <= shr_m (shr_1 mrs)) as H1 by now apply shr_m_shr_1_nonneg.
    assert (0 <= shr_m (iter_pos shr_1 p (shr_1 mrs))) as H2.
    { rewrite IH by exact H1. apply Z.div_pos; lia. }
    rewrite IH by exact H2. rewrite IH by exact H1. rewrite shr_m_shr_1 by exact Hm.
    rewrite !Z.div_div by lia. f_equal.
    replace (Z.pos p~1) with (1 + Zpos p + Zpos p) by lia.
    rewrite !Z.pow_add_r by lia. simpl (2 ^ 1). lia.
  - assert (0 <= shr_m (iter_pos shr_1 p mrs)) as H2.
    { rewrite IH by exact Hm. apply Z.div_pos; lia. }
    rewrite IH by exact H2. rewrite IH by exact Hm.
    rewrite !Z.div_div by lia. f_equal.
    replace (Z.pos p~0) with (Zpos p + Zpos p) by lia.
    rewrite !Z.pow_add_r by lia. lia.
  - rewrite shr_m_shr_1 by exact Hm. reflexivity.
Qed.

Lemma round_nearest_even_cases m l :
  round_nearest_even m l = m \/ round_nearest_even m l = m + 1.
Proof.
  destruct l as [|[| |]]; simpl; auto. destruct (Z.even m); auto.
Qed.


(** Away from the subnormal range the exponent of a float with [e] digits
    before the point is [e - 53]. *)
Lemma fexp_normal e : -1021 <= e -> fexp prec emax e = e - 53.
Proof. unfold fexp, emin, prec, emax. lia. Qed.

Lemma shr_m_of_loc m l : shr_m (shr_record_of_loc m l) = m.
Proof. destruct l as [|[| |]]; reflexivity. Qed.

(** [shr_fexp] drops the digits beyond the 53rd. *)
Lemma shr_fexp_spec (m : positive) e l :
  -1021 <= Zpos (digits2_pos m) + e ->
  exists mrs,
    shr_fexp prec emax (Zpos m) e l
    = (mrs, e + Z.max (Zpos (digits2_pos m) - 53) 0)
    /\ shr_m mrs = Zpos m / 2 ^ Z.max (Zpos (digits2_pos m) - 53) 0.
Proof.
  intros Hr. unfold shr_fexp, shr. simpl Zdigits2.
  rewrite fexp_normal by exact Hr.
  replace (Zpos (digits2_pos m) + e - 53 - e) with (Zpos (digits2_pos m) - 53) by lia.
  destruct (Zpos (digits2_pos m) - 53) as [|p|p] eqn:En.
  - eexists. split; [rewrite Z.add_0_r; reflexivity|].
    rewrite shr_m_of_loc. simpl. now rewrite Z.div_1_r.
  - eexists. split; [rewrite Z.max_l by lia; reflexivity|].
    rewrite shr_m_iter by (rewrite shr_m_of_loc; lia).
    rewrite shr_m_of_loc, Z.max_l by lia. reflexivity.
  - eexists. split; [rewrite Z.max_r by lia; rewrite Z.add_0_r; reflexivity|].
    rewrite shr_m_of_loc, Z.max_r by lia. simpl. now rewrite Z.div_1_r.
Qed.

(** *** Rounding

    Rounding a mantissa of at least 53 digits keeps its leading 53 digits or
    moves to their successor; [j] is 1 when the successor needs a 54th
    digit. *)
Lemma binary_round_aux_spec s (mx : positive) ex lx :
  53 <= Zpos (digits2_pos mx) ->
  -1021 <= Zpos (digits2_pos mx) + ex ->
  Zpos (digits2_pos mx) + ex <= 1023 ->
  exists (m : positive) (j : Z),
    binary_round_aux prec emax s (Zpos mx) ex lx
    = S754_finite s m (ex + (Zpos (digits2_pos mx) - 53) + j)
    /\ (j = 0 \/ j = 1)
    /\ Zpos mx / 2 ^ (Zpos (digits2_pos mx) - 53) <= Zpos m * 2 ^ j
       <= Zpos mx / 2 ^ (Zpos (digits2_pos mx) - 53) + 1
    /\ 2 ^ 52 <= Zpos mx / 2 ^ (Zpos (digits2_pos mx) - 53)
    /\ 2 ^ 52 <= Zpos m < 2 ^ 53.
Proof.
  intros Hd Hlo Hhi.
  set (d := Zpos (digits2_pos mx)) in *.
  set (n := d - 53).
  assert (0 <= n) as Hn by (unfold n; lia).
  set (m1 := Zpos mx / 2 ^ n).
  assert (2 ^ 52 <= m1 < 2 ^ 53) as Hm1.
  { pose proof (digits2_pos_bounds mx) as [Blo Bhi]. fold d in Blo, Bhi.
    assert (0 < 2 ^ n) by (apply Z.pow_pos_nonneg; lia).
    replace (d - 1) with (52 + n) in Blo by (unfold n; lia).
    replace d with (53 + n) in Bhi by (unfold n; lia).
    rewrite Z.pow_add_r in Blo, Bhi by lia. unfold m1. split.
    - apply Z.div_le_lower_bound; lia.
    - apply Z.div_lt_upper_bound; lia. }
  unfold binary_round_aux.
  destruct (shr_fexp_spec mx ex lx Hlo) as (mrs & E1 & Hmrs).
  fold d in E1, Hmrs. fold n in E1, Hmrs. rewrite Z.max_l in E1, Hmrs by lia.
  fold m1 in Hmrs. rewrite E1. rewrite Hmrs.
  pose proof (round_nearest_even_cases m1 (loc_of_shr_record mrs)) as Hr.
  set (m2 := round_nearest_even m1 (loc_of_shr_record mrs)) in *.
  assert (2 ^ 52 <= m2 <= 2 ^ 53) as Hm2 by lia.
  destruct m2 as [|p2|p2] eqn:Em2; [lia| |lia].
  destruct (Z_lt_le_dec (Zpos p2) (2 ^ 53)) as [Hlt|Hge].
  - assert (Zpos (digits2_pos p2) = 53) as Hd2
      by (apply digits2_pos_unique; simpl (53 - 1); lia).
    destruct (shr_fexp_spec p2 (ex + n) loc_Exact) as (mrs2 & E2 & Hmrs2);
      [rewrite Hd2; unfold n; lia|].
    rewrite Hd2 in E2, Hmrs2. change (Z.max (53 - 53) 0) with 0 in E2, Hmrs2.
    rewrite Z.div_1_r in Hmrs2. rewrite E2, Hmrs2.
    replace (ex + n + 0 <=? emax - prec) with true
      by (symmetry; apply Z.leb_le; unfold emax, prec, n; lia).
    exists p2, 0. split; [reflexivity|]. split; [now left|].
    rewrite Z.mul_1_r. repeat split; lia.
  - assert (Zpos p2 = 2 ^ 53) as Hp2 by lia.
    assert (Zpos (digits2_pos p2) = 54) as Hd2
      by (apply digits2_pos_unique; rewrite Hp2; simpl; lia).
    destruct (shr_fexp_spec p2 (ex + n) loc_Exact) as (mrs2 & E2 & Hmrs2);
      [rewrite Hd2; unfold n; lia|].
    rewrite Hd2 in E2, Hmrs2. change (Z.max (54 - 53) 0) with 1 in E2, Hmrs2.
    rewrite Hp2 in Hmrs2. change (2 ^ 53 / 2 ^ 1) with (Zpos (2 ^ 52)) in Hmrs2.
    rewrite E2, Hmrs2.
    replace (ex + n + 1 <=? emax - prec) with true
      by (symmetry; apply Z.leb_le; unfold emax, prec, n; lia).
    exists (2 ^ 52)%positive, 1. split; [reflexivity|]. split; [now right|].
    change (Zpos (2 ^ 52) * 2 ^ 1) with (2 ^ 53).
    change (Zpos (2 ^ 52)) with (2 ^ 52).
    repeat split; lia.
Qed.


(** A mantissa of exactly 53 digits is not changed. *)
Lemma binary_round_aux_exact s (m : positive) e :
  Zpos (digits2_pos m) = 53 -> -1074 <= e <= 971 ->
  binary_round_aux prec emax s (Zpos m) e loc_Exact = S754_finite s m e.
Proof.
  intros Hd He. unfold binary_round_aux, shr_fexp, shr. simpl Zdigits2.
  rewrite Hd, (fexp_normal (53 + e)) by lia.
  replace (53 + e - 53 - e) with 0 by lia. cbv beta iota.
  simpl shr_m. simpl loc_of_shr_record. simpl round_nearest_even.
  simpl Zdigits2.
  rewrite Hd, (fexp_normal (53 + e)) by lia.
  replace (53 + e - 53 - e) with 0 by lia. cbv beta iota. simpl shr_m.
  replace (e <=? emax - prec) with true
    by (symmetry; apply Z.leb_le; unfold emax, prec; lia).
  reflexivity.
Qed.

Lemma Zpos_iter_xO (p k : positive) :
  Zpos (Pos.iter xO p k) = Zpos p * 2 ^ Zpos k.
Proof.
  induction k as [|k IH] using Pos.peano_ind.
  - simpl. lia.
  - rewrite Pos.iter_succ, Pos2Z.inj_xO, IH, Pos2Z.inj_succ, Z.pow_succ_r by lia.
    lia.
Qed.

(** A positive [int64] below [2^53] converts exactly, to a normal float. *)
Lemma of_int64_exact (p : positive) :
  Zpos p < 2 ^ 53 ->
  exists m e,
    of_int64 (Zpos p) = S754_finite false m e
    /\ Zpos (digits2_pos m) = 53
    /\ -52 <= e <= 0
    /\ Zpos m = Zpos p * 2 ^ (- e).
Proof.
  intros Hp. unfold of_int64, binary_normalize, binary_round, shl_align.
  pose proof (digits2_pos_bounds p) as [Blo Bhi].
  set (d := Zpos (digits2_pos p)) in *.
  assert (1 <= d <= 53) as Hd.
  { split; [unfold d; lia|].
    destruct (Z_le_gt_dec d 53) as [|Hgt]; [assumption|].
    assert (2 ^ 53 <= 2 ^ (d - 1)) by (apply Z.pow_le_mono_r; lia). lia. }
  rewrite fexp_normal by lia.
  replace (d + 0 - 53 - 0) with (d - 53) by lia.
  destruct (d - 53) as [|k|k] eqn:Ek; [|lia|].
  - assert (d = 53) as Hd53 by lia.
    rewrite binary_round_aux_exact by (fold d; lia).
    exists p, 0. repeat split; lia.
  - assert (Zpos (digits2_pos (Pos.iter xO p k)) = 53) as Hd53.
    { apply digits2_pos_unique. rewrite Zpos_iter_xO.
      assert (Zpos k = 53 - d) as Hk by lia.
      assert (2 ^ (53 - 1) = 2 ^ (d - 1) * 2 ^ Zpos k) as ->
        by (rewrite <- Z.pow_add_r by lia; f_equal; lia).
      assert (2 ^ 53 = 2 ^ d * 2 ^ Zpos k) as ->
        by (rewrite <- Z.pow_add_r by lia; f_equal; lia).
      assert (0 < 2 ^ Zpos k) by (apply Z.pow_pos_nonneg; lia).
      split; [apply Z.mul_le_mono_nonneg_r; lia|apply Z.mul_lt_mono_pos_r; lia]. }
    replace (d + 0 - 53) with (Zneg k) by lia.
    rewrite binary_round_aux_exact by (try exact Hd53; lia).
    exists (Pos.iter xO p k), (Zneg k).
    split; [reflexivity|]. split; [exact Hd53|]. split; [lia|].
    rewrite Zpos_iter_xO. reflexivity.
Qed.

Lemma digits2_pos_ge (p : positive) (k : Z) :
  2 ^ (k - 1) <= Zpos p -> k <= Zpos (digits2_pos p).
Proof.
  intros H. pose proof (digits2_pos_bounds p) as [_ Bhi].
  destruct (Z_le_gt_dec k (Zpos (digits2_pos p))) as [|Hgt]; [assumption|].
  assert (2 ^ Zpos (digits2_pos p) <= 2 ^ (k - 1))
    by (apply Z.pow_le_mono_r; lia). lia.
Qed.

Lemma digits2_pos_le (p : positive) (k : Z) :
  0 <= k -> Zpos p < 2 ^ k -> Zpos (digits2_pos p) <= k.
Proof.
  intros Hk H. pose proof (digits2_pos_bounds p) as [Blo _].
  destruct (Z_le_gt_dec (Zpos (digits2_pos p)) k) as [|Hgt]; [assumption|].
  assert (2 ^ k <= 2 ^ (Zpos (digits2_pos p) - 1))
    by (apply Z.pow_le_mono_r; lia). lia.
Qed.

(** The quotient of two normal floats with small exponents. *)
Lemma div_spec (m1 m2 : positive) (e1 e2 : Z) :
  Zpos (digits2_pos m1) = 53 -> Zpos (digits2_pos m2) = 53 ->
  -52 <= e1 <= 0 -> -52 <= e2 <= 0 ->
  exists (m : positive) (n j : Z),
    div (S754_finite false m1 e1) (S754_finite false m2 e2)
    = S754_finite false m (e1 - e2 - 53 + n + j)
    /\ 0 <= n <= 1 /\ (j = 0 \/ j = 1)
    /\ (Zpos m1 * 2 ^ 53 / Zpos m2) / 2 ^ n <= Zpos m * 2 ^ j
       <= (Zpos m1 * 2 ^ 53 / Zpos m2) / 2 ^ n + 1
    /\ 2 ^ 52 <= (Zpos m1 * 2 ^ 53 / Zpos m2) / 2 ^ n
    /\ 2 ^ 52 <= Zpos m < 2 ^ 53.
Proof.
  intros Hd1 Hd2 He1 He2.
  pose proof (digits2_pos_bounds m1) as B1. rewrite Hd1 in B1.
  pose proof (digits2_pos_bounds m2) as B2. rewrite Hd2 in B2.
  simpl (53 - 1) in B1, B2.
  unfold div, SFdiv, SFdiv_core_binary. simpl Zdigits2.
  rewrite Hd1, Hd2.
  replace (53 + e1 - (53 + e2)) with (e1 - e2) by lia.
  rewrite fexp_normal by lia.
  rewrite Z.min_l by lia.
  replace (e1 - e2 - (e1 - e2 - 53)) with 53 by lia.
  rewrite Z.shiftl_mul_pow2 by lia.
  set (q := Zpos m1 * 2 ^ 53 / Zpos m2).
  assert (2 ^ 52 <= q < 2 ^ 54) as Hq.
  { unfold q. split.
    - apply Z.div_le_lower_bound; [lia|]. nia.
    - apply Z.div_lt_upper_bound; [lia|]. nia. }
  pose proof (Z_div_mod (Zpos m1 * 2 ^ 53) (Zpos m2) ltac:(lia)) as Hdm.
  destruct (Z.div_eucl (Zpos m1 * 2 ^ 53) (Zpos m2)) as [q' r] eqn:Edm.
  assert (q' = q) as ->.
  { unfold q, Z.div. now rewrite Edm. }
  destruct q as [|pq|pq] eqn:Eq; [lia| |lia].
  assert (53 <= Zpos (digits2_pos pq) <= 54) as Hdq.
  { split; [apply digits2_pos_ge; simpl (53 - 1); lia
           |apply digits2_pos_le; lia]. }
  destruct (binary_round_aux_spec (xorb false false) pq (e1 - e2 - 53)
              (new_location (Zpos m2) r)) as (m & j & E & Hj & Hm & Ha & Hmr);
    [lia|lia|lia|].
  exists m, (Zpos (digits2_pos pq) - 53), j.
  split; [exact E|]. split; [lia|]. split; [exact Hj|].
  split; [exact Hm|]. split; [exact Ha|exact Hmr].
Qed.

(** The product of a normal float and 100. *)
Lemma hundred_eq : hundred = S754_finite false 7036874417766400 (-46).
Proof. reflexivity. Qed.

Lemma mul_hundred_spec (m1 : positive) (e1 : Z) :
  2 ^ 52 <= Zpos m1 < 2 ^ 53 -> -200 <= e1 <= 200 ->
  exists (m : positive) (n j : Z),
    mul (S754_finite false m1 e1) hundred
    = S754_finite false m (e1 - 46 + n + j)
    /\ 0 <= n /\ (j = 0 \/ j = 1)
    /\ (Zpos m1 * 7036874417766400) / 2 ^ n <= Zpos m * 2 ^ j
       <= (Zpos m1 * 7036874417766400) / 2 ^ n + 1
    /\ 2 ^ 52 <= (Zpos m1 * 7036874417766400) / 2 ^ n
    /\ 2 ^ 52 <= Zpos m < 2 ^ 53.
Proof.
  intros Hm1 He1. rewrite hundred_eq. unfold mul, SFmul.
  set (pq := (m1 * 7036874417766400)%positive).
  assert (Zpos pq = Zpos m1 * 7036874417766400) as Epq by (unfold pq; lia).
  assert (105 <= Zpos (digits2_pos pq) <= 106) as Hdq.
  { split.
    - apply digits2_pos_ge. rewrite Epq.
      change (2 ^ (105 - 1)) with (2 ^ 52 * 2 ^ 52). nia.
    - apply digits2_pos_le; [lia|]. rewrite Epq.
      change (2 ^ 106) with (2 ^ 53 * 2 ^ 53). nia. }
  destruct (binary_round_aux_spec (xorb false false) pq (e1 + -46) loc_Exact)
    as (m & j & E & Hj & Hm & Ha & Hmr); [lia|lia|lia|].
  exists m, (Zpos (digits2_pos pq) - 53), j.
  rewrite Epq in Hm, Ha.
  split; [rewrite E; f_equal; lia|]. split; [lia|]. split; [exact Hj|].
  split; [exact Hm|]. split; [exact Ha|exact Hmr].
Qed.


(** *** Rounding error, in the rationals *)

Local Open Scope Q_scope.

Lemma pow2_pos e : 0 < pow2 e.
Proof. apply Qpower_0_lt. reflexivity. Qed.

Lemma pow2_add a b : pow2 (a + b) == pow2 a * pow2 b.
Proof. apply Qpower_plus. discriminate. Qed.

Lemma pow2_inject k : (0 <= k)%Z -> pow2 k == inject_Z (2 ^ k).
Proof. intros Hk. unfold pow2. now rewrite Zpower_Qpower. Qed.

Lemma same_cell_error r v :
  same_cell r v ->
  - (v * (1 # 4503599627370496)) <= r - v <= v * (1 # 4503599627370496).
Proof.
  intros (a & w & Hw & Ha & [Hv1 Hv2] & [Hr1 Hr2]).
  rewrite inject_Z_plus in Hv2, Hr2.
  assert (inject_Z (2 ^ 52) * w <= inject_Z a * w) as H52.
  { apply Qmult_le_compat_r; [|lra]. now rewrite <- Zle_Qle. }
  change (inject_Z (2 ^ 52)) with (4503599627370496 # 1) in H52.
  change (inject_Z 1) with 1 in Hv2, Hr2.
  split; lra.
Qed.

Lemma cell_of_round (X ex n j : Z) (m : positive) (v : Q) :
  (0 <= n)%Z -> (j = 0 \/ j = 1)%Z ->
  (X / 2 ^ n <= Zpos m * 2 ^ j <= X / 2 ^ n + 1)%Z ->
  (2 ^ 52 <= X / 2 ^ n)%Z ->
  inject_Z X * pow2 ex <= v <= inject_Z (X + 1) * pow2 ex ->
  same_cell (F2Q m (ex + n + j)) v.
Proof.
  intros Hn Hj [Hm1 Hm2] Ha [Hv1 Hv2].
  assert (0 < 2 ^ n)%Z as Hpn by (apply Z.pow_pos_nonneg; lia).
  exists (X / 2 ^ n)%Z, (pow2 (ex + n)).
  pose proof (pow2_pos ex) as Pex. pose proof (pow2_pos (ex + n)) as Pw.
  assert (pow2 (ex + n) == pow2 ex * inject_Z (2 ^ n)) as Ew
    by (rewrite pow2_add, (pow2_inject n Hn); reflexivity).
  split; [exact Pw|]. split; [exact Ha|].
  assert ((X / 2 ^ n) * 2 ^ n <= X)%Z as Hlo
    by (rewrite Z.mul_comm; apply Z.mul_div_le; lia).
  assert (X + 1 <= (X / 2 ^ n + 1) * 2 ^ n)%Z as Hhi.
  { pose proof (Z.mul_succ_div_gt X (2 ^ n) Hpn). lia. }
  rewrite Zle_Qle, inject_Z_mult in Hlo, Hhi.
  assert (0 <= j)%Z as Hj0 by lia.
  split; [split|split].
  - rewrite Ew. eapply Qle_trans; [|exact Hv1].
    setoid_replace (inject_Z (X / 2 ^ n) * (pow2 ex * inject_Z (2 ^ n)))
      with (inject_Z (X / 2 ^ n) * inject_Z (2 ^ n) * pow2 ex) by ring.
    apply Qmult_le_compat_r; [exact Hlo|lra].
  - rewrite Ew. eapply Qle_trans; [exact Hv2|].
    setoid_replace (inject_Z (X / 2 ^ n + 1) * (pow2 ex * inject_Z (2 ^ n)))
      with (inject_Z (X / 2 ^ n + 1) * inject_Z (2 ^ n) * pow2 ex) by ring.
    apply Qmult_le_compat_r; [exact Hhi|lra].
  - unfold F2Q. rewrite (pow2_add (ex + n) j).
    rewrite (pow2_inject j Hj0).
    setoid_replace (inject_Z (Zpos m) * (pow2 (ex + n) * inject_Z (2 ^ j)))
      with (inject_Z (Zpos m) * inject_Z (2 ^ j) * pow2 (ex + n)) by ring.
    rewrite <- inject_Z_mult.
    apply Qmult_le_compat_r; [|lra]. now rewrite <- Zle_Qle.
  - unfold F2Q. rewrite (pow2_add (ex + n) j).
    rewrite (pow2_inject j Hj0).
    setoid_replace (inject_Z (Zpos m) * (pow2 (ex + n) * inject_Z (2 ^ j)))
      with (inject_Z (Zpos m) * inject_Z (2 ^ j) * pow2 (ex + n)) by ring.
    rewrite <- inject_Z_mult.
    apply Qmult_le_compat_r; [|lra]. now rewrite <- Zle_Qle.
Qed.


Lemma div_cell (pu pc : positive) :
  (Zpos pu < 2 ^ 53)%Z -> (Zpos pc < 2 ^ 53)%Z ->
  exists m e,
    div (of_int64 (Zpos pu)) (of_int64 (Zpos pc)) = S754_finite false m e
    /\ (2 ^ 52 <= Zpos m < 2 ^ 53)%Z /\ (-200 <= e <= 200)%Z
    /\ same_cell (F2Q m e) (inject_Z (Zpos pu) / inject_Z (Zpos pc)).
Proof.
  intros Hu Hc.
  destruct (of_int64_exact pu Hu) as (mu & eu & -> & Hdu & Heu & Emu).
  destruct (of_int64_exact pc Hc) as (mc & ec & -> & Hdc & Hec & Emc).
  destruct (div_spec mu mc eu ec Hdu Hdc Heu Hec)
    as (m & n & j & -> & Hn & Hj & Hm & Ha & Hmr).
  exists m, (eu - ec - 53 + n + j)%Z.
  split; [reflexivity|]. split; [exact Hmr|]. split; [lia|].
  apply cell_of_round with (X := (Zpos mu * 2 ^ 53 / Zpos mc)%Z);
    try assumption; try lia.
  set (X := (Zpos mu * 2 ^ 53 / Zpos mc)%Z).
  assert (X * Zpos mc <= Zpos mu * 2 ^ 53)%Z as Hlo
    by (unfold X; rewrite Z.mul_comm; apply Z.mul_div_le; lia).
  assert (Zpos mu * 2 ^ 53 <= (X + 1) * Zpos mc)%Z as Hhi.
  { pose proof (Z.mul_succ_div_gt (Zpos mu * 2 ^ 53) (Zpos mc) ltac:(lia)).
    fold X in H. lia. }
  rewrite Emu, Emc in Hlo, Hhi.
  rewrite Zle_Qle in Hlo, Hhi. rewrite !inject_Z_mult in Hlo, Hhi.
  assert (0 <= - eu)%Z as Hneu by lia. assert (0 <= - ec)%Z as Hnec by lia.
  rewrite <- (pow2_inject (- eu) Hneu) in Hlo, Hhi.
  rewrite <- (pow2_inject (- ec) Hnec) in Hlo, Hhi.
  rewrite <- (pow2_inject 53 ltac:(lia)) in Hlo, Hhi.
  pose proof (pow2_pos (- eu)) as Pa. pose proof (pow2_pos (- ec)) as Pb.
  pose proof (pow2_pos 53) as PK. pose proof (pow2_pos (eu - ec - 53)) as PP.
  assert (pow2 (eu - ec - 53) * (pow2 (- eu) * pow2 53) == pow2 (- ec)) as Hrel.
  { rewrite <- !pow2_add. replace (eu - ec - 53 + (- eu + 53))%Z with (- ec)%Z by lia.
    reflexivity. }
  assert (0 < inject_Z (Zpos pc)) as Pc by (rewrite <- (Zlt_Qlt 0); lia).
  assert (0 < pow2 (- eu) * pow2 53) as PaK by (apply Qmult_lt_0_compat; assumption).
  split.
  - apply Qle_shift_div_l; [exact Pc|].
    apply (Qmult_le_r _ _ _ PaK).
    setoid_replace (inject_Z X * pow2 (eu - ec - 53) * inject_Z (Zpos pc)
                    * (pow2 (- eu) * pow2 53))
      with (inject_Z X * (inject_Z (Zpos pc)
            * (pow2 (eu - ec - 53) * (pow2 (- eu) * pow2 53)))) by ring.
    rewrite Hrel.
    setoid_replace (inject_Z (Zpos pu) * (pow2 (- eu) * pow2 53))
      with (inject_Z (Zpos pu) * pow2 (- eu) * pow2 53) by ring.
    exact Hlo.
  - apply Qle_shift_div_r; [exact Pc|].
    apply (Qmult_le_r _ _ _ PaK).
    setoid_replace (inject_Z (X + 1) * pow2 (eu - ec - 53) * inject_Z (Zpos pc)
                    * (pow2 (- eu) * pow2 53))
      with (inject_Z (X + 1) * (inject_Z (Zpos pc)
            * (pow2 (eu - ec - 53) * (pow2 (- eu) * pow2 53)))) by ring.
    rewrite Hrel.
    setoid_replace (inject_Z (Zpos pu) * (pow2 (- eu) * pow2 53))
      with (inject_Z (Zpos pu) * pow2 (- eu) * pow2 53) by ring.
    exact Hhi.
Qed.

Lemma mul_hundred_cell (m1 : positive) (e1 : Z) :
  (2 ^ 52 <= Zpos m1 < 2 ^ 53)%Z -> (-200 <= e1 <= 200)%Z ->
  exists m e,
    mul (S754_finite false m1 e1) hundred = S754_finite false m e
    /\ same_cell (F2Q m e) (100 * F2Q m1 e1).
Proof.
  intros Hm1 He1.
  destruct (mul_hundred_spec m1 e1 Hm1 He1)
    as (m & n & j & -> & Hn & Hj & Hm & Ha & Hmr).
  exists m, (e1 - 46 + n + j)%Z. split; [reflexivity|].
  apply cell_of_round with (X := (Zpos m1 * 7036874417766400)%Z);
    try assumption.
  assert (inject_Z (Zpos m1 * 7036874417766400) * pow2 (e1 - 46)
          == 100 * F2Q m1 e1) as Ev.
  { unfold F2Q. rewrite inject_Z_mult.
    replace (e1 - 46)%Z with (e1 + - 46)%Z by lia. rewrite pow2_add.
    assert (inject_Z 7036874417766400 * pow2 (- 46) == 100) as H100
      by (vm_compute; reflexivity).
    rewrite <- H100. ring. }
  pose proof (pow2_pos (e1 - 46)) as PP.
  split.
  - rewrite Ev. apply Qle_refl.
  - rewrite <- Ev. apply Qmult_le_compat_r; [|lra].
    rewrite <- Zle_Qle. lia.
Qed.

(** The standard error model for the percentage the collector computes: for
    positive millicore values below [2^53] the result is a finite float whose
    relative distance from the exact quotient is at most [3 * 2^-52]. *)
Lemma percentage_relative_error (pu pc : positive) :
  (Zpos pu < 2 ^ 53)%Z -> (Zpos pc < 2 ^ 53)%Z ->
  exists m e,
    percentage (Zpos pu) (Zpos pc) = S754_finite false m e
    /\ - (100 * inject_Z (Zpos pu) / inject_Z (Zpos pc)
          * (3 # 4503599627370496))
       <= F2Q m e - 100 * inject_Z (Zpos pu) / inject_Z (Zpos pc)
       <= 100 * inject_Z (Zpos pu) / inject_Z (Zpos pc)
          * (3 # 4503599627370496).
Proof.
  intros Hu Hc.
  assert (0 < inject_Z (Zpos pc)) as Pc by (rewrite <- (Zlt_Qlt 0); lia).
  destruct (div_cell pu pc Hu Hc) as (mD & eD & ED & HmD & HeD & HcellD).
  destruct (mul_hundred_cell mD eD HmD HeD) as (mF & eF & EF & HcellF).
  exists mF, eF. split; [unfold percentage; now rewrite ED, EF|].
  apply same_cell_error in HcellD, HcellF.
  set (q := inject_Z (Zpos pu) / inject_Z (Zpos pc)) in *.
  assert (100 * inject_Z (Zpos pu) / inject_Z (Zpos pc) == 100 * q) as ->
    by (unfold q; field; lra).
  assert (0 <= q) as Hq0.
  { unfold q. apply Qle_shift_div_l; [exact Pc|].
    rewrite Qmult_0_l. rewrite <- (Zle_Qle 0). lia. }
  split; lra.
Qed.

(** The percentage the collector computes is within [10^-9] of the exact
    quotient, for millicore values below [2^53] and a usage of at most a
    thousand times the capacity. *)
Theorem percentage_accurate (used capacity : Z) :
  (0 <= used < 2 ^ 53)%Z -> (0 < capacity < 2 ^ 53)%Z ->
  (used <= 1000 * capacity)%Z ->
  within (1 # 1000000000) (percentage used capacity)
    (100 * inject_Z used / inject_Z capacity).
Proof.
  intros Hu Hc Hr.
  destruct capacity as [|pc|pc]; try lia.
  assert (0 < inject_Z (Zpos pc)) as Pc by (rewrite <- (Zlt_Qlt 0); lia).
  destruct used as [|pu|pu]; try lia.
  - (* nothing used: the quotient is an exact zero *)
    destruct (of_int64_exact pc (proj2 Hc)) as (mc & ec & E & _).
    unfold percentage. rewrite E. unfold within. simpl.
    unfold Qle; simpl. lia.
  - destruct (percentage_relative_error pu pc (proj2 Hu) (proj2 Hc))
      as (m & e & E & Herr).
    rewrite E. unfold within, to_Q. fold (pow2 e). fold (F2Q m e).
    set (q := inject_Z (Zpos pu) / inject_Z (Zpos pc)) in *.
    assert (100 * inject_Z (Zpos pu) / inject_Z (Zpos pc) == 100 * q) as Eq
      by (unfold q; field; lra).
    rewrite Eq in Herr |- *.
    assert (q <= 1000) as Hq.
    { unfold q. apply Qle_shift_div_r; [exact Pc|].
      change 1000 with (inject_Z 1000). rewrite <- inject_Z_mult, <- Zle_Qle.
      lia. }
    assert (0 <= q) as Hq0.
    { unfold q. apply Qle_shift_div_l; [exact Pc|].
      rewrite Qmult_0_l. rewrite <- (Zle_Qle 0). lia. }
    apply Qabs_Qle_condition. split; lra.
Qed.

End Float64Facts.

(** ** Facts about the table model *)

Module SqliteFacts.
Import Sqlite.

Section Table.
Context {D : Type}.
Implicit Types (db : DB D) (r : Row D) (rs : list (Row D)).

Lemma max_rowid_nonneg rs : 0 <= max_rowid rs.
Proof. induction rs as [|r rs IH]; simpl; lia. Qed.

Lemma max_rowid_bound rs s :
  0 <= s -> Forall (fun r => id r <= s) rs -> max_rowid rs <= s.
Proof.
  intros Hs H; induction H as [|r rs Hr _ IH]; simpl; lia.
Qed.

Lemma max_rowid_snoc rs r :
  max_rowid (rs ++ [r]) = Z.max (max_rowid rs) (Z.max (id r) 0).
Proof. induction rs as [|r' rs IH]; simpl; [|rewrite IH]; lia. Qed.

Lemma rows_insert d db :
  rows (insert d db) = rows db ++ [mkRow (next_rowid db) d].
Proof. reflexivity. Qed.

Lemma seq_value_insert d db : seq_value (insert d db) = next_rowid db.
Proof. reflexivity. Qed.

Lemma next_rowid_wf db : wf db -> next_rowid db = seq_value db + 1.
Proof.
  intros (_ & Hall & _ & Hs). unfold next_rowid.
  assert (max_rowid (rows db) <= seq_value db).
  { apply max_rowid_bound; [exact Hs|].
    eapply Forall_impl; [|exact Hall]. simpl; intros; lia. }
  lia.
Qed.

Lemma StronglySorted_snoc (R : Row D -> Row D -> Prop) rs r :
  StronglySorted R rs -> Forall (fun a => R a r) rs ->
  StronglySorted R (rs ++ [r]).
Proof.
  induction 1 as [|a l Hl IH Ha]; intros Hr; simpl.
  - repeat constructor.
  - inversion Hr; subst. constructor; [auto|].
    apply Forall_app; split; [exact Ha|]. repeat constructor; assumption.
Qed.

Lemma wf_empty : wf (@empty D).
Proof.
  unfold wf; simpl. split; [constructor|]. split; [constructor|].
  split; [congruence|]. unfold seq_value; simpl. lia.
Qed.

Lemma wf_insert d db : wf db -> wf (insert d db).
Proof.
  intros Hwf. pose proof (next_rowid_wf db Hwf) as Hn.
  destruct Hwf as (Hsort & Hall & Hmax & Hs).
  unfold wf. rewrite rows_insert, seq_value_insert, Hn.
  repeat split.
  - apply StronglySorted_snoc; [exact Hsort|].
    eapply Forall_impl; [|exact Hall]. simpl; intros; lia.
  - apply Forall_app; split.
    + eapply Forall_impl; [|exact Hall]. simpl; intros; lia.
    + repeat constructor; simpl; lia.
  - intros _. rewrite max_rowid_snoc; simpl.
    assert (max_rowid (rows db) <= seq_value db).
    { apply max_rowid_bound; [exact Hs|].
      eapply Forall_impl; [|exact Hall]. simpl; intros; lia. }
    lia.
  - lia.
Qed.

Lemma wf_insert_all ds db : wf db -> wf (insert_all ds db).
Proof.
  revert db; induction ds as [|d ds IH]; intros db Hwf; simpl; [exact Hwf|].
  apply IH, wf_insert, Hwf.
Qed.

Lemma wf_delete_all db : wf db -> wf (delete_all db).
Proof.
  intros (_ & _ & _ & Hs). unfold wf; simpl.
  split; [constructor|]. split; [constructor|].
  split; [congruence|exact Hs].
Qed.

(** The rows an [INSERT ... SELECT] adds. *)
Lemma rows_insert_all ds db :
  exists new,
    rows (insert_all ds db) = rows db ++ new /\ map cols new = ds.
Proof.
  revert db; induction ds as [|d ds IH]; intros db; simpl.
  - exists []. now rewrite app_nil_r.
  - destruct (IH (insert d db)) as (new & Hrows & Hcols).
    exists (mkRow (next_rowid db) d :: new). split.
    + rewrite Hrows, rows_insert, <- app_assoc. reflexivity.
    + simpl. now rewrite Hcols.
Qed.

(** [ORDER BY ... DESC] returns the scanned rows, largest key first. *)
Lemma insert_desc_perm key r rs :
  Permutation (r :: rs) (insert_desc key r rs).
Proof.
  induction rs as [|y rs IH]; simpl; [reflexivity|].
  destruct (key y <=? key r); [reflexivity|].
  rewrite perm_swap. now apply perm_skip.
Qed.

Lemma order_by_desc_perm key rs : Permutation rs (order_by_desc key rs).
Proof.
  induction rs as [|r rs IH]; simpl; [reflexivity|].
  rewrite <- insert_desc_perm. now apply perm_skip.
Qed.

Lemma insert_desc_sorted key r rs :
  StronglySorted (key_desc key) rs ->
  StronglySorted (key_desc key) (insert_desc key r rs).
Proof.
  induction 1 as [|y l Hl IH Hy]; simpl.
  - repeat constructor.
  - destruct (key y <=? key r) eqn:E.
    + apply Z.leb_le in E. constructor.
      * constructor; assumption.
      * constructor; [exact E|].
        eapply Forall_impl; [|exact Hy]. unfold key_desc; intros; lia.
    + apply Z.leb_gt in E. constructor; [exact IH|].
      eapply Permutation_Forall; [apply insert_desc_perm|].
      constructor; [unfold key_desc; lia|exact Hy].
Qed.

Lemma order_by_desc_sorted key rs :
  StronglySorted (key_desc key) (order_by_desc key rs).
Proof.
  induction rs as [|r rs IH]; simpl; [constructor|].
  now apply insert_desc_sorted.
Qed.

(** The first row of an ordered scan has the largest key. *)
Lemma order_by_desc_head key rs r rest :
  order_by_desc key rs = r :: rest ->
  In r rs /\ forall r', In r' rs -> key r' <= key r.
Proof.
  intros E. pose proof (order_by_desc_perm key rs) as P.
  pose proof (order_by_desc_sorted key rs) as S.
  rewrite E in P, S. split.
  - eapply Permutation_in; [symmetry; exact P|]. now left.
  - intros r' Hin. apply (Permutation_in _ P) in Hin.
    destruct Hin as [<-|Hin]; [lia|].
    inversion S as [|? ? _ Hall]; subst.
    rewrite Forall_forall in Hall. exact (Hall _ Hin).
Qed.

Lemma order_by_desc_nil key rs : order_by_desc key rs = [] -> rs = [].
Proof.
  intros E. pose proof (order_by_desc_perm key rs) as P. rewrite E in P.
  now apply Permutation_nil, Permutation_sym.
Qed.

(** An identifier selects one row of a well-formed table. *)
Lemma where_id_in_above rs i :
  Forall (fun b => i < id b) rs -> where_id_in [i] rs = [].
Proof.
  unfold where_id_in. induction 1 as [|b l Hb _ IH]; simpl; [reflexivity|].
  replace (id b =? i) with false by (symmetry; apply Z.eqb_neq; lia).
  exact IH.
Qed.

Lemma where_id_in_single rs r :
  StronglySorted (fun a b => id a < id b) rs -> In r rs ->
  where_id_in [id r] rs = [r].
Proof.
  induction 1 as [|a l Hl IH Ha]; simpl; [tauto|].
  intros [->|Hin]; unfold where_id_in; simpl.
  - rewrite Z.eqb_refl; simpl. f_equal.
    now apply where_id_in_above.
  - rewrite Forall_forall in Ha.
    assert (id a < id r) by (apply Ha; exact Hin).
    replace (id a =? id r) with false by (symmetry; apply Z.eqb_neq; lia).
    simpl. now apply IH.
Qed.

Lemma where_id_in_nil rs : where_id_in [] rs = [].
Proof. unfold where_id_in. induction rs; simpl; auto. Qed.

(** Appending rows leaves every stored row where it was. *)
Lemma lookup_app i rs new s s' d :
  lookup i (mkDB rs s) = Some d -> lookup i (mkDB (rs ++ new) s') = Some d.
Proof.
  unfold lookup; simpl. induction rs as [|r rs IH]; simpl; [discriminate|].
  destruct (id r =? i); [auto|exact IH].
Qed.
End Table.
End SqliteFacts.

(** ** resetDB *)

Import Sqlite.

(** C1.  [resetDB] of the aggregate collector deletes every row and takes the
    identifier sequence back to its initial value, and it is all-or-nothing:
    when none of its four database calls fails the table is empty, the
    sequence entry is gone, the next identifier is the initial one and the
    answer is 200 with no body; when any of them fails the store is exactly
    what it was and the answer is 500 with an error payload. *)
Theorem resetDB_all_or_nothing :
  forall (f : Aggregate.ResetErrors) (db : Aggregate.Store),
    let db' := fst (Aggregate.resetDB f db) in
    let resp := snd (Aggregate.resetDB f db) in
    if Aggregate.no_reset_error f
    then rows db' = [] /\ seq db' = None
         /\ next_rowid db' = initial_rowid (D := Aggregate.MetricsData)
         /\ resp = c_Status StatusOK
    else db' = db /\ is_error_response resp.
Proof.
  intros [[eb|] [ed|] [es|] [ec|]] db; simpl;
    first [ repeat split; reflexivity
          | split; [reflexivity|]; split; [reflexivity|];
            eexists; reflexivity ].
Qed.

(** The message of the error payload names the step that failed. *)
Lemma resetDB_error_message :
  forall (db : Aggregate.Store) (e : string),
    snd (Aggregate.resetDB
           (Aggregate.mkResetErrors None None (Some e) None) db)
    = c_JSON StatusInternalServerError
        (error_H (String.append "Failed to reset sequence: " e)).
Proof. reflexivity. Qed.

(** ** startBenchmark *)

Module BenchmarkFacts.
Import Aggregate SqliteFacts Spec.

Lemma benchmark_source_ids_selected db :
  benchmark_source_ids db =
    match selected db with Some r => [id r] | None => [] end.
Proof.
  unfold benchmark_source_ids, selected, limit.
  fold by_timestamp. fold organic.
  destruct (order_by_desc by_timestamp (filter organic (rows db)));
    reflexivity.
Qed.

Lemma selected_spec db r :
  selected db = Some r ->
  In r (rows db) /\ IsBenchmark (cols r) = false
  /\ forall r', In r' (rows db) -> IsBenchmark (cols r') = false ->
                Timestamp (cols r') <= Timestamp (cols r).
Proof.
  unfold selected. intros E.
  destruct (order_by_desc by_timestamp (filter organic (rows db)))
    as [|r0 rest] eqn:Eo; [discriminate|].
  injection E as ->.
  destruct (order_by_desc_head _ _ _ _ Eo) as [Hin Hmax].
  apply filter_In in Hin. destruct Hin as [Hin Horg].
  split; [exact Hin|]. split.
  - unfold organic in Horg. now apply negb_true_iff in Horg.
  - intros r' Hin' Hb. apply (Hmax r'). apply filter_In. split; [exact Hin'|].
    unfold organic. now rewrite Hb.
Qed.

Lemma selected_none db :
  selected db = None ->
  forall r, In r (rows db) -> IsBenchmark (cols r) = true.
Proof.
  unfold selected. intros E r Hin.
  destruct (order_by_desc by_timestamp (filter organic (rows db)))
    as [|r0 rest] eqn:Eo; [|discriminate].
  apply order_by_desc_nil in Eo.
  destruct (IsBenchmark (cols r)) eqn:Hb; [reflexivity|].
  assert (In r (filter organic (rows db))) as Hf.
  { apply filter_In. split; [exact Hin|]. unfold organic. now rewrite Hb. }
  rewrite Eo in Hf. destruct Hf.
Qed.

Lemma selected_some db r0 :
  In r0 (rows db) -> IsBenchmark (cols r0) = false ->
  exists r, selected db = Some r.
Proof.
  intros Hin Hb. destruct (selected db) as [r|] eqn:E; [now exists r|].
  rewrite (selected_none db E r0 Hin) in Hb. discriminate.
Qed.

(** What the INSERT ... SELECT of [startBenchmark] does to the table. *)
Lemma insert_benchmark_selected db :
  wf db ->
  insert_benchmark db =
    match selected db with
    | Some r => insert (as_benchmark (cols r)) db
    | None => db
    end.
Proof.
  intros Hwf. unfold insert_benchmark, benchmark_sources.
  rewrite benchmark_source_ids_selected.
  destruct (selected db) as [r|] eqn:E.
  - destruct (selected_spec db r E) as (Hin & _).
    rewrite (where_id_in_single (rows db) r (proj1 Hwf) Hin). reflexivity.
  - rewrite where_id_in_nil. reflexivity.
Qed.

Lemma wf_insert_benchmark db : wf db -> wf (insert_benchmark db).
Proof. intros Hwf. unfold insert_benchmark. now apply wf_insert_all. Qed.
End BenchmarkFacts.

(** C2.  On a well-formed table with at least one row whose [is_benchmark] is
    false, a successful [startBenchmark] appends exactly one row: its
    timestamp, node name, CPU usage, memory usage and the two cluster values
    are those of the row the statement selected, its flag is true, and the
    answer is 201.  On a table without such a row it inserts nothing and
    still answers 201. *)
Theorem startBenchmark_copies_one_row :
  forall db : Aggregate.Store,
    wf db ->
    ((exists r, In r (rows db) /\ Aggregate.IsBenchmark (cols r) = false) ->
     exists src new,
       Spec.selected db = Some src
       /\ In src (rows db)
       /\ Aggregate.IsBenchmark (cols src) = false
       /\ rows (fst (Aggregate.startBenchmark None db)) = rows db ++ [new]
       /\ Aggregate.same_sample (cols new) (cols src)
       /\ Aggregate.IsBenchmark (cols new) = true
       /\ snd (Aggregate.startBenchmark None db) = c_Status StatusCreated)
    /\
    ((forall r, In r (rows db) -> Aggregate.IsBenchmark (cols r) = true) ->
     Aggregate.startBenchmark None db = (db, c_Status StatusCreated)).
Proof.
  intros db Hwf.
  unfold Aggregate.startBenchmark; simpl.
  rewrite (BenchmarkFacts.insert_benchmark_selected db Hwf).
  split.
  - intros (r0 & Hin0 & Hb0).
    destruct (BenchmarkFacts.selected_some db r0 Hin0 Hb0) as (src & E).
    destruct (BenchmarkFacts.selected_spec db src E) as (Hin & Hb & _).
    rewrite E.
    exists src, (mkRow (next_rowid db) (Aggregate.as_benchmark (cols src))).
    repeat split; assumption.
  - intros Hall.
    destruct (Spec.selected db) as [r|] eqn:E; [|reflexivity].
    destruct (BenchmarkFacts.selected_spec db r E) as (Hin & Hb & _).
    rewrite (Hall r Hin) in Hb. discriminate.
Qed.

Module SelectionFacts.
Import Aggregate SqliteFacts BenchmarkFacts Spec.

Lemma hd_error_rev {A : Type} (l : list A) (x : A) :
  hd_error (rev l) = Some x -> exists l', l = l' ++ [x].
Proof.
  intros E. destruct (rev l) as [|y t] eqn:Er; [discriminate|].
  injection E as ->. exists (rev t).
  rewrite <- (rev_involutive l), Er. reflexivity.
Qed.

Lemma StronglySorted_last {A : Type} (R : A -> A -> Prop) l x :
  StronglySorted R (l ++ [x]) -> Forall (fun a => R a x) l.
Proof.
  induction l as [|a l IH]; simpl; intros H; [constructor|].
  inversion H as [|? ? Hs Hall]; subst. constructor.
  - rewrite Forall_forall in Hall. apply Hall, in_or_app. right. now left.
  - now apply IH.
Qed.

Lemma StronglySorted_filter {A : Type} (R : A -> A -> Prop) f l :
  StronglySorted R l -> StronglySorted R (filter f l).
Proof.
  induction 1 as [|a l Hl IH Ha]; simpl; [constructor|].
  destruct (f a); [|exact IH]. constructor; [exact IH|].
  rewrite Forall_forall in *. intros x Hx. apply Ha.
  apply filter_In in Hx. tauto.
Qed.

Lemma most_recent_organic_spec db m :
  wf db -> most_recent_organic db = Some m ->
  In m (rows db) /\ IsBenchmark (cols m) = false
  /\ forall r, In r (rows db) -> IsBenchmark (cols r) = false ->
               id r <= id m.
Proof.
  intros (Hsort & _) E. unfold most_recent_organic in E.
  apply hd_error_rev in E. destruct E as (l' & El).
  assert (In m (filter organic (rows db))) as Hm.
  { rewrite El. apply in_or_app. right. now left. }
  apply filter_In in Hm. destruct Hm as [Hin Horg].
  split; [exact Hin|]. split.
  { unfold organic in Horg. now apply negb_true_iff in Horg. }
  intros r Hr Hb.
  assert (In r (filter organic (rows db))) as Hf.
  { apply filter_In. split; [exact Hr|]. unfold organic. now rewrite Hb. }
  pose proof (StronglySorted_filter _ organic _ Hsort) as Hs.
  rewrite El in Hs, Hf. apply StronglySorted_last in Hs.
  rewrite Forall_forall in Hs.
  apply in_app_or in Hf. destruct Hf as [Hf|[<-|[]]]; [|lia].
  specialize (Hs _ Hf). simpl in Hs. lia.
Qed.

Lemma same_id_same_row (rs : list (Row MetricsData)) a b :
  StronglySorted (fun a b => id a < id b) rs ->
  In a rs -> In b rs -> id a = id b -> a = b.
Proof.
  induction 1 as [|x l Hl IH Hx]; simpl; [tauto|].
  rewrite Forall_forall in Hx.
  intros [<-|Ha] [<-|Hb] E; auto.
  - specialize (Hx _ Hb). lia.
  - specialize (Hx _ Ha). lia.
Qed.
End SelectionFacts.

(** C3, as stated, fails: after two cycles with the clock set back in
    between, the most recently inserted non-benchmark row is the one of node
    b (identifier 2), yet [startBenchmark] copies the row of node a
    (identifier 1), whose timestamp is the larger one. *)
Lemma startBenchmark_selects_by_timestamp_not_identifier :
  exists recent new,
    Spec.most_recent_organic ClockSetBack.store = Some recent
    /\ id recent = 2
    /\ rows (fst (Aggregate.startBenchmark None ClockSetBack.store))
       = rows ClockSetBack.store ++ [new]
    /\ Aggregate.NodeName (cols recent) = "b"%string
    /\ Aggregate.NodeName (cols new) = "a"%string
    /\ ~ Aggregate.same_sample (cols new) (cols recent).
Proof.
  do 2 eexists. split; [vm_compute; reflexivity|].
  split; [reflexivity|]. split; [vm_compute; reflexivity|].
  split; [reflexivity|]. split; [reflexivity|].
  intros (Hts & _). vm_compute in Hts. discriminate.
Qed.

(** C3, amended.  The row [startBenchmark] copies is a row whose flag is
    false and whose timestamp is the largest among such rows: the statement
    selects by timestamp, not by identifier.  When the timestamps of the
    non-benchmark rows strictly increase with their identifiers, that row is
    the most recently inserted non-benchmark row. *)
Theorem startBenchmark_copies_latest_timestamp :
  forall db : Aggregate.Store,
    wf db ->
    (exists r, In r (rows db) /\ Aggregate.IsBenchmark (cols r) = false) ->
    exists src,
      rows (fst (Aggregate.startBenchmark None db))
        = rows db ++ [mkRow (next_rowid db) (Aggregate.as_benchmark (cols src))]
      /\ In src (rows db)
      /\ Aggregate.IsBenchmark (cols src) = false
      /\ (forall r, In r (rows db) -> Aggregate.IsBenchmark (cols r) = false ->
                    Aggregate.Timestamp (cols r) <= Aggregate.Timestamp (cols src))
      /\ ((forall a b, In a (rows db) -> In b (rows db) ->
                       Aggregate.IsBenchmark (cols a) = false ->
                       Aggregate.IsBenchmark (cols b) = false ->
                       id a < id b ->
                       Aggregate.Timestamp (cols a) < Aggregate.Timestamp (cols b)) ->
          Spec.most_recent_organic db = Some src).
Proof.
  intros db Hwf (r0 & Hin0 & Hb0).
  destruct (BenchmarkFacts.selected_some db r0 Hin0 Hb0) as (src & E).
  destruct (BenchmarkFacts.selected_spec db src E) as (Hin & Hb & Hmax).
  exists src. split.
  { unfold Aggregate.startBenchmark; simpl.
    rewrite (BenchmarkFacts.insert_benchmark_selected db Hwf), E. reflexivity. }
  repeat (split; [assumption|]).
  intros Hmono.
  destruct (Spec.most_recent_organic db) as [m|] eqn:Em.
  - destruct (SelectionFacts.most_recent_organic_spec db m Hwf Em)
      as (Hinm & Hbm & Hlast).
    f_equal. apply (SelectionFacts.same_id_same_row (rows db)); auto.
    { exact (proj1 Hwf). }
    pose proof (Hlast src Hin Hb) as Hle.
    destruct (Z.eq_dec (id m) (id src)) as [Heq|Hne]; [exact Heq|].
    assert (id src < id m) as Hlt by lia.
    pose proof (Hmono src m Hin Hinm Hb Hbm Hlt).
    pose proof (Hmax m Hinm Hbm). lia.
  - exfalso. unfold Spec.most_recent_organic in Em.
    assert (In src (filter Spec.organic (rows db))) as Hf.
    { apply filter_In. split; [exact Hin|].
      unfold Spec.organic. now rewrite Hb. }
    apply in_rev in Hf.
    destruct (rev (filter Spec.organic (rows db)));
      [destruct Hf|discriminate].
Qed.

(** ** getMetrics *)

Module QueryFacts.
Import Aggregate SqliteFacts Spec.

Lemma Scan_finite r :
  finite_row r = true -> Scan None r = inr (cols r).
Proof.
  unfold finite_row, Scan, is_null. intros H.
  apply andb_prop in H as [H1 H2].
  destruct (CpuUsage (cols r)); try discriminate;
    destruct (ClusterCpuUsage (cols r)); try discriminate; reflexivity.
Qed.

Lemma finite_supported r :
  finite_row r = true -> unsupported_value (cols r) = false.
Proof.
  unfold finite_row, unsupported_value. intros H.
  apply andb_prop in H as [-> ->]. reflexivity.
Qed.

Lemma scanRows_no_error i rs acc :
  Forall (fun r => finite_row r = true) rs ->
  scanRows (fun _ => None) i rs (Some acc) = inr (Some (acc ++ map cols rs)).
Proof.
  intros H; revert i acc; induction H as [|r rs Hr _ IH]; intros i acc;
    cbn [scanRows map].
  - now rewrite app_nil_r.
  - rewrite (Scan_finite r Hr). cbn [GoSlice.append].
    rewrite IH, <- app_assoc. reflexivity.
Qed.

Lemma scanRows_from_nil rs :
  Forall (fun r => finite_row r = true) rs ->
  scanRows (fun _ => None) 0 rs GoSlice.nil_slice
  = inr (match rs with [] => None | _ => Some (map cols rs) end).
Proof.
  intros H. destruct H as [|r rs Hr Hrs]; [reflexivity|].
  cbn [scanRows]. rewrite (Scan_finite r Hr).
  cbn [GoSlice.append GoSlice.nil_slice].
  now rewrite scanRows_no_error.
Qed.

Lemma marshal_finite rs :
  Forall (fun r => finite_row r = true) rs ->
  existsb unsupported_value (map cols rs) = false.
Proof.
  induction 1 as [|r rs Hr _ IH]; simpl; [reflexivity|].
  now rewrite (finite_supported r Hr).
Qed.

Lemma select_all_finite db :
  Forall (fun r => finite_row r = true) (rows db) ->
  Forall (fun r => finite_row r = true) (select_all db).
Proof.
  intros H. eapply Permutation_Forall; [|exact H].
  apply order_by_desc_perm.
Qed.

Lemma getMetrics_no_error db :
  Forall (fun r => finite_row r = true) (rows db) ->
  getMetrics None (fun _ => None) db
  = c_JSON StatusOK (rows_json (select_all db)).
Proof.
  intros H. apply select_all_finite in H.
  unfold getMetrics. rewrite (scanRows_from_nil _ H).
  unfold c_JSON_metrics, marshal_fails.
  destruct (select_all db) as [|r rs] eqn:E; [reflexivity|].
  rewrite (marshal_finite _ H).
  simpl. unfold rows_json. now rewrite map_map.
Qed.
End QueryFacts.

(** C6, as stated, fails.  A row and its benchmark copy share a timestamp,
    and [getMetrics] returns the row with the smaller identifier first.
    Nor is every stored row returned whatever it holds: after a cycle for a
    node of capacity zero the table holds a row with an infinite percentage,
    and the answer is 200 with an empty body; after a cycle whose first loop
    resolved no node it holds a row whose aggregate is NULL, and the answer
    is 500. *)
Lemma getMetrics_ties_not_by_identifier_desc :
  map (fun r => (id r, Aggregate.Timestamp (cols r)))
      (Aggregate.select_all SnapshotTie.store) = [(1, 20); (2, 20)]
  /\ ~ StronglySorted Spec.newest_first
        (Aggregate.select_all SnapshotTie.store)
  /\ Aggregate.getMetrics None (fun _ => None) SnapshotTie.store
     = c_JSON StatusOK (Spec.rows_json (Aggregate.select_all SnapshotTie.store))
  /\ List.length (rows ZeroCapacity.store) = 1%nat
  /\ Aggregate.getMetrics None (fun _ => None) ZeroCapacity.store
     = mkResponse StatusOK None
  /\ List.length (rows EmptyAggregate.store) = 1%nat
  /\ status (Aggregate.getMetrics None (fun _ => None) EmptyAggregate.store)
     = StatusInternalServerError.
Proof.
  split; [vm_compute; reflexivity|split].
  - intros H. vm_compute in H.
    inversion H as [|? ? _ Hall]; subst.
    inversion Hall as [|? ? Hfirst _]; subst.
    destruct Hfirst as [Hlt|[_ Hlt]]; vm_compute in Hlt; discriminate.
  - vm_compute. repeat split.
Qed.

(** C6, amended.  The query of [getMetrics] returns every stored row, ordered
    by timestamp descending; the statement has no second sort key, so nothing
    orders rows of equal timestamp by identifier.  On a table whose rows hold
    numbers in [cpu_usage] and [cluster_cpu_usage] and with no database error,
    the answer is 200 and its body holds the rows in that order. *)
Theorem getMetrics_all_rows_timestamp_desc :
  forall db : Aggregate.Store,
    Permutation (rows db) (Aggregate.select_all db)
    /\ StronglySorted Spec.timestamp_desc (Aggregate.select_all db)
    /\ (Forall (fun r => Spec.finite_row r = true) (rows db) ->
        Aggregate.getMetrics None (fun _ => None) db
        = c_JSON StatusOK (Spec.rows_json (Aggregate.select_all db))).
Proof.
  intros db. split; [|split].
  - apply SqliteFacts.order_by_desc_perm.
  - apply (SqliteFacts.order_by_desc_sorted
             (fun r => Aggregate.Timestamp (cols r))).
  - apply QueryFacts.getMetrics_no_error.
Qed.

Lemma getMetrics_all_rows_timestamp_desc_witness :
  Aggregate.getMetrics None (fun _ => None) TwoNodes.store
  = c_JSON StatusOK (Spec.rows_json (Aggregate.select_all TwoNodes.store)).
Proof.
  apply (proj2 (proj2 (getMetrics_all_rows_timestamp_desc TwoNodes.store))).
  vm_compute. repeat constructor.
Defined.

(** C10.  On a table without rows, [getMetrics] answers 200 with the body
    [null], the encoding of the nil slice, and not with an empty array. *)
Theorem getMetrics_empty_store_is_null :
  forall (s : option Z) (scanErr : nat -> option string),
    Aggregate.getMetrics None scanErr (mkDB [] s)
    = mkResponse StatusOK (Some JNull)
    /\ Aggregate.marshal_slice GoSlice.nil_slice <> JArray [].
Proof.
  intros s scanErr. split; [reflexivity|discriminate].
Qed.

(** ** collectMetrics *)

Module Int64Facts.
Import Int64.

Lemma wrap_in_range z : in_range z -> wrap z = z.
Proof.
  unfold in_range, wrap, min_int, max_int, half, modulus. intros H.
  rewrite Z.mod_small; lia.
Qed.

Lemma wrap_add_l a b : wrap (wrap a + b) = wrap (a + b).
Proof.
  unfold wrap.
  replace ((a + half) mod modulus - half + b + half)
    with ((a + half) mod modulus + b) by lia.
  rewrite Zplus_mod_idemp_l. f_equal. f_equal. lia.
Qed.

Lemma add_wrap_l a b : add (wrap a) b = wrap (a + b).
Proof. apply wrap_add_l. Qed.

Lemma wrap_zero : wrap 0 = 0.
Proof. reflexivity. Qed.

Lemma below_2_53_in_range z : 0 <= z < 2 ^ 53 -> in_range z.
Proof. unfold in_range, min_int, max_int, half. lia. Qed.
End Int64Facts.

Module CollectorFacts.
Import Aggregate SqliteFacts Spec.

Lemma firstPass_totals get items :
  forall i total used log,
    firstPass get i items (Int64.wrap total) (Int64.wrap used) log
    = (Int64.wrap (total + sum_capacity (resolved get i items)),
       Int64.wrap (used + sum_used (resolved get i items)),
       log ++ lookup_errors get i items).
Proof.
  induction items as [|nm rest IH]; intros i total used log; simpl.
  - now rewrite !Z.add_0_r, app_nil_r.
  - destruct (get i) as [err|cap]; simpl.
    + unfold Printf at 1. rewrite IH. unfold Printf; simpl.
      now rewrite <- app_assoc.
    + rewrite !Int64Facts.add_wrap_l, IH. simpl.
      now rewrite !Z.add_assoc.
Qed.

Lemma firstPass_from_zero get items :
  firstPass get 0 items 0 0 []
  = (Int64.wrap (sum_capacity (resolved get 0 items)),
     Int64.wrap (sum_used (resolved get 0 items)),
     lookup_errors get 0 items).
Proof.
  pose proof (firstPass_totals get items 0%nat 0 0 []) as H.
  rewrite Int64Facts.wrap_zero in H. exact H.
Qed.

Lemma secondPass_rows t pct total items :
  forall i db log,
    exists new,
      rows (fst (secondPass t i items pct total db log)) = rows db ++ new
      /\ map cols new = stored t i items pct total
      /\ seq_value db <= seq_value (fst (secondPass t i items pct total db log)).
Proof.
  induction items as [|nm rest IH]; intros i db log; simpl.
  - exists []. rewrite app_nil_r. split; [reflexivity|]. split; [reflexivity|lia].
  - destruct (getNodeSecond t i) as [err|cap]; [apply IH|].
    destruct (insertErr t i) as [e|]; simpl; [apply IH|].
    destruct (IH (S i) (insert (sample (timeNow t i) nm cap pct total) db) log)
      as (new & Hrows & Hcols & Hseq).
    eexists. split; [|split].
    + rewrite Hrows, rows_insert, <- app_assoc. reflexivity.
    + simpl. now rewrite Hcols.
    + rewrite seq_value_insert in Hseq. unfold next_rowid in Hseq. lia.
Qed.

Lemma wf_secondPass t pct total items :
  forall i db log, wf db -> wf (fst (secondPass t i items pct total db log)).
Proof.
  induction items as [|nm rest IH]; intros i db log Hwf; simpl; [exact Hwf|].
  destruct (getNodeSecond t i) as [err|cap]; [now apply IH|].
  destruct (insertErr t i) as [e|]; simpl; [now apply IH|].
  apply IH, wf_insert, Hwf.
Qed.

(** A cycle whose listing and client creation succeeded. *)
Lemma collectCycle_rows t items db :
  listNodes t = inr items -> newClientset t = None ->
  exists new,
    rows (fst (collectCycle t db)) = rows db ++ new
    /\ map cols new
       = stored t 0 items
           (Float64.percentage (clusterUsed t items) (clusterTotal t items))
           (clusterTotal t items).
Proof.
  intros Hl Hc. unfold collectCycle. rewrite Hl, Hc, firstPass_from_zero.
  destruct (secondPass_rows t
              (Float64.percentage (clusterUsed t items) (clusterTotal t items))
              (clusterTotal t items) items 0 db
              (lookup_errors (getNodeFirst t) 0 items))
    as (new & Hrows & Hcols & _).
  exists new. split; assumption.
Qed.

Lemma wf_collectCycle t db : wf db -> wf (fst (collectCycle t db)).
Proof.
  intros Hwf. unfold collectCycle.
  destruct (listNodes t) as [e|items]; [exact Hwf|].
  destruct (newClientset t) as [e|]; [exact Hwf|].
  rewrite firstPass_from_zero. now apply wf_secondPass.
Qed.

Lemma stored_consistent t pct total items :
  forall i,
    (forall j, (i <= j < i + List.length items)%nat ->
               getNodeSecond t j = getNodeFirst t j /\ insertErr t j = None) ->
    Forall2 (sample_of pct total) (stored t i items pct total)
      (resolved (getNodeFirst t) i items).
Proof.
  induction items as [|nm rest IH]; intros i H; simpl; [constructor|].
  destruct (H i) as (-> & ->); [simpl; lia|].
  assert (Forall2 (sample_of pct total) (stored t (S i) rest pct total)
            (resolved (getNodeFirst t) (S i) rest)) as Hrest.
  { apply IH. intros j Hj. apply H. simpl. lia. }
  destruct (getNodeFirst t i) as [e|cap]; [exact Hrest|].
  constructor; [|exact Hrest]. repeat split.
Qed.

Lemma Forall2_of_map {A B C : Type} (f : A -> B) (P : B -> C -> Prop) l l' :
  Forall2 P (map f l) l' -> Forall2 (fun a c => P (f a) c) l l'.
Proof.
  revert l'; induction l as [|a l IH]; intros l' H; simpl in H;
    inversion H; subst; constructor; auto.
Qed.

Lemma stored_shared t pct total items :
  forall i, Forall (fun m => ClusterCpuUsage m = pct
                             /\ ClusterTotalCpu m = total
                             /\ IsBenchmark m = false)
              (stored t i items pct total).
Proof.
  induction items as [|nm rest IH]; intros i; simpl; [constructor|].
  destruct (getNodeSecond t i); [apply IH|].
  destruct (insertErr t i); [apply IH|].
  constructor; [repeat split|apply IH].
Qed.
End CollectorFacts.

(** C4, as stated, fails: the aggregate is summed over the nodes the first
    loop resolved and the rows are written for the nodes the second loop
    resolved.  Here the first loop resolves one node (capacity 1000) and the
    second loop two (capacities 1000 and 2000): two rows are appended, not
    one, and both carry the total 1000, not 3000. *)
Lemma collectCycle_aggregate_set_differs_from_written_set :
  let db' := fst (Aggregate.collectCycle LateNode.tick empty) in
  List.length (rows db') = 2%nat
  /\ map (fun r => Aggregate.NodeName (cols r)) (rows db') = ["a"; "b"]%string
  /\ map (fun r => Aggregate.ClusterTotalCpu (cols r)) (rows db') = [1000; 1000]
  /\ List.length (Spec.resolved
                    (Aggregate.getNodeFirst LateNode.tick) 0 LateNode.items) = 1%nat
  /\ Spec.sum_capacity
       (Spec.resolved
          (Aggregate.getNodeSecond LateNode.tick) 0 LateNode.items) = 3000.
Proof. vm_compute. repeat split. Qed.

(** C4, amended.  In a cycle whose listing and client creation succeed, whose
    capacity lookups answer in the second loop as they did in the first, and
    whose inserts all succeed, with N resolved nodes: exactly N rows are
    appended, one per resolved node in order; every one has the flag false
    and the same two cluster values; [cluster_total_cpu] is the [int64] sum
    of the resolved capacities (the exact sum whenever it fits 64 bits);
    [cluster_cpu_usage] is [float64(used)/float64(total)*100] over the
    [int64] sums; each [cpu_usage] is [float64(used_i)/float64(capacity_i)*100]
    of its own node.  For realistic millicore values (a positive capacity,
    both values below [2^53], usage at most a thousand times the capacity)
    these floats are within [10^-9] of [100 * used / capacity]. *)
Theorem collectCycle_rows_carry_aggregate :
  forall (t : Aggregate.Tick) (items : list Aggregate.NodeMetric)
         (db : Aggregate.Store),
    Aggregate.listNodes t = inr items ->
    Aggregate.newClientset t = None ->
    (forall i, (i < List.length items)%nat ->
               Aggregate.getNodeSecond t i = Aggregate.getNodeFirst t i) ->
    (forall i, (i < List.length items)%nat -> Aggregate.insertErr t i = None) ->
    let nodes := Spec.resolved (Aggregate.getNodeFirst t) 0 items in
    let total := Int64.wrap (Spec.sum_capacity nodes) in
    let used := Int64.wrap (Spec.sum_used nodes) in
    exists new,
      rows (fst (Aggregate.collectCycle t db)) = rows db ++ new
      /\ List.length new = List.length nodes
      /\ Forall2
           (fun r node =>
              Spec.sample_of (Float64.percentage used total) total (cols r) node
              /\ (Spec.realistic (Aggregate.UsageCpuMilli (fst node)) (snd node) ->
                  Float64.within Spec.tolerance (Aggregate.CpuUsage (cols r))
                    (Spec.exact_percentage
                       (Aggregate.UsageCpuMilli (fst node)) (snd node))))
           new nodes
      /\ (Int64.in_range (Spec.sum_capacity nodes) ->
          total = Spec.sum_capacity nodes)
      /\ (Int64.in_range (Spec.sum_used nodes) ->
          used = Spec.sum_used nodes)
      /\ (Spec.realistic (Spec.sum_used nodes) (Spec.sum_capacity nodes) ->
          Float64.within Spec.tolerance (Float64.percentage used total)
            (Spec.exact_percentage
               (Spec.sum_used nodes) (Spec.sum_capacity nodes))).
Proof.
  intros t items db Hl Hc Hsame Hins nodes total used.
  destruct (CollectorFacts.collectCycle_rows t items db Hl Hc)
    as (new & Hrows & Hcols).
  fold nodes in Hcols.
  assert (Forall2 (Spec.sample_of (Float64.percentage used total) total)
            (map cols new) nodes) as HF.
  { rewrite Hcols. apply CollectorFacts.stored_consistent.
    intros j Hj. split; [apply Hsame|apply Hins]; lia. }
  exists new. split; [exact Hrows|]. split; [|split; [|split; [|split]]].
  - rewrite <- (length_map cols). exact (Forall2_length HF).
  - apply CollectorFacts.Forall2_of_map in HF.
    eapply Forall2_impl; [|exact HF].
    intros r node Hs. split; [exact Hs|].
    intros (Hu & Hcap & Hratio).
    destruct Hs as (_ & -> & _).
    now apply Float64Facts.percentage_accurate.
  - apply Int64Facts.wrap_in_range.
  - apply Int64Facts.wrap_in_range.
  - intros (Hu & Hcap & Hratio). unfold used, total.
    rewrite !Int64Facts.wrap_in_range
      by (apply Int64Facts.below_2_53_in_range; lia).
    now apply Float64Facts.percentage_accurate.
Qed.

(** C5, as stated, fails: nothing guards the division.  When the first loop
    resolves no node the quotient of the two zero sums is NaN, and the second
    loop, which asks for every node again, writes a row with that NaN and a
    total of 0 for every node it resolves. *)
Lemma collectCycle_division_not_guarded :
  Spec.resolved
    (Aggregate.getNodeFirst EmptyAggregate.tick) 0 EmptyAggregate.items = []
  /\ Float64.percentage 0 0 = S754_nan
  /\ map (fun r => (Aggregate.NodeName (cols r),
                    Aggregate.ClusterCpuUsage (cols r),
                    Aggregate.ClusterTotalCpu (cols r)))
         (rows (fst (Aggregate.collectCycle EmptyAggregate.tick empty)))
     = [("a"%string, S754_nan, 0)].
Proof. vm_compute. repeat split. Qed.

(** C5, amended.  A cycle in which no node is resolved by the loop that
    writes (in particular a cycle in which every capacity lookup fails)
    writes no row and surfaces no error: the store, and so every answer of
    [getMetrics], is what it was.  The division is not guarded; it is a
    [float64] division, which yields NaN for the zero sums and cannot
    panic. *)
Theorem collectCycle_nothing_resolved_writes_nothing :
  forall (t : Aggregate.Tick) (db : Aggregate.Store),
    (forall items, Aggregate.listNodes t = inr items ->
       forall i, (i < List.length items)%nat ->
                 exists e, Aggregate.getNodeSecond t i = inl e) ->
    fst (Aggregate.collectCycle t db) = db
    /\ (forall queryErr scanErr,
          Aggregate.getMetrics queryErr scanErr (fst (Aggregate.collectCycle t db))
          = Aggregate.getMetrics queryErr scanErr db)
    /\ Float64.percentage 0 0 = S754_nan.
Proof.
  intros t db H.
  assert (fst (Aggregate.collectCycle t db) = db) as E.
  { unfold Aggregate.collectCycle.
    destruct (Aggregate.listNodes t) as [e|items] eqn:Hl; [reflexivity|].
    destruct (Aggregate.newClientset t) as [e|]; [reflexivity|].
    rewrite CollectorFacts.firstPass_from_zero.
    specialize (H items eq_refl). clear Hl.
    generalize (Spec.lookup_errors (Aggregate.getNodeFirst t) 0 items).
    generalize (Float64.percentage
                  (Int64.wrap (Spec.sum_used
                     (Spec.resolved (Aggregate.getNodeFirst t) 0 items)))
                  (Int64.wrap (Spec.sum_capacity
                     (Spec.resolved (Aggregate.getNodeFirst t) 0 items)))).
    generalize (Int64.wrap (Spec.sum_capacity
                  (Spec.resolved (Aggregate.getNodeFirst t) 0 items))).
    assert (forall j, (0 <= j < 0 + List.length items)%nat ->
                      exists e, Aggregate.getNodeSecond t j = inl e) as H0.
    { intros j Hj. apply H. lia. }
    clear H. revert H0. generalize 0%nat.
    induction items as [|nm rest IH]; intros i H total pct log; simpl;
      [reflexivity|].
    destruct (H i) as (e & ->); [simpl; lia|].
    apply IH. intros j Hj. apply H. simpl. lia. }
  split; [exact E|]. split; [|reflexivity].
  intros. now rewrite E.
Qed.

Module LoopFacts.
Import Aggregate Spec.

Lemma collectMetrics_app ticks1 ticks2 :
  forall db log,
    collectMetrics (ticks1 ++ ticks2) db log
    = collectMetrics ticks2 (fst (collectMetrics ticks1 db log))
        (snd (collectMetrics ticks1 db log)).
Proof.
  induction ticks1 as [|t rest IH]; intros db log; simpl; [reflexivity|].
  destruct (collectCycle t db) as [db' lines]. apply IH.
Qed.

Lemma collectCycle_written t db :
  map cols (rows (fst (collectCycle t db))) = map cols (rows db) ++ written t.
Proof.
  unfold written.
  destruct (listNodes t) as [e|items] eqn:Hl.
  { unfold collectCycle. rewrite Hl. simpl. now rewrite app_nil_r. }
  destruct (newClientset t) as [e|] eqn:Hc.
  { unfold collectCycle. rewrite Hl, Hc. simpl. now rewrite app_nil_r. }
  destruct (CollectorFacts.collectCycle_rows t items db Hl Hc)
    as (new & Hrows & Hcols).
  rewrite Hrows, map_app. f_equal. exact Hcols.
Qed.

Lemma collectMetrics_written ticks :
  forall db log,
    map cols (rows (fst (collectMetrics ticks db log)))
    = map cols (rows db) ++ List.concat (map written ticks).
Proof.
  induction ticks as [|t rest IH]; intros db log; simpl.
  - now rewrite app_nil_r.
  - pose proof (collectCycle_written t db) as Ht.
    destruct (collectCycle t db) as [db' lines]. simpl in Ht.
    rewrite IH, Ht, <- app_assoc. reflexivity.
Qed.
End LoopFacts.

(** C7, as stated, fails: a failure fetching the capacity of a node does not
    skip that node.  Each of the two loops fetches the capacity of every node
    again.  Here the fetch for [b] fails in the first loop, which logs it
    and leaves [b] out of the sums, and succeeds in the second loop: the row
    of [b] is written all the same, with a total that does not count [b]. *)
Lemma collectCycle_failed_fetch_does_not_skip_node :
  Aggregate.getNodeFirst LateNode.tick 1 = inl "timeout"%string
  /\ snd (Aggregate.collectCycle LateNode.tick empty)
     = ["Error getting node info: timeout"%string]
  /\ map (fun r => (id r, Aggregate.NodeName (cols r),
                    Aggregate.ClusterTotalCpu (cols r)))
         (rows (fst (Aggregate.collectCycle LateNode.tick empty)))
     = [(1, "a"%string, 1000); (2, "b"%string, 1000)].
Proof. vm_compute. repeat split. Qed.

(** C7, amended.  Failures of the collector stay where they occur.
    - When listing fails the cycle ends at once: the store is untouched and
      one line is logged; nothing is retried within the cycle.  The same
      holds when the client cannot be created.
    - Otherwise the capacity of every node is fetched twice.  A fetch that
      fails in the first loop leaves that node out of the aggregate only; a
      fetch that fails in the second loop leaves the row of that node out
      only; a failed insert loses that row only.  The rows appended are
      exactly the samples of the nodes whose own fetch in the second loop and
      whose own insert succeeded, in order, and all of them carry the one
      aggregate of the cycle, summed over the nodes whose fetch in the first
      loop succeeded.
    - No failure ends the loop: over any sequence of ticks, whatever each of
      them answers, the table grows by the samples of every tick in turn, a
      tick whose listing or client creation fails contributing none. *)
Theorem collector_failures_isolated :
  (forall (t : Aggregate.Tick) (db : Aggregate.Store),
     match Aggregate.listNodes t, Aggregate.newClientset t with
     | inl e, _ =>
         Aggregate.collectCycle t db
         = (db, [String.append "Error collecting metrics: " e])
     | inr _, Some e =>
         Aggregate.collectCycle t db
         = (db, [String.append "Error creating clientset: " e])
     | inr items, None =>
         exists new,
           rows (fst (Aggregate.collectCycle t db)) = rows db ++ new
           /\ map cols new
              = Spec.stored t 0 items
                  (Float64.percentage (Spec.clusterUsed t items)
                     (Spec.clusterTotal t items))
                  (Spec.clusterTotal t items)
           /\ Forall
                (fun r =>
                   Aggregate.ClusterCpuUsage (cols r)
                   = Float64.percentage (Spec.clusterUsed t items)
                       (Spec.clusterTotal t items)
                   /\ Aggregate.ClusterTotalCpu (cols r)
                      = Spec.clusterTotal t items
                   /\ Aggregate.IsBenchmark (cols r) = false)
                new
     end)
  /\ (forall (ticks : list Aggregate.Tick) (db : Aggregate.Store) (log : Log),
        map cols (rows (fst (Aggregate.collectMetrics ticks db log)))
        = map cols (rows db) ++ List.concat (map Spec.written ticks))
  /\ (forall (before after : list Aggregate.Tick) (t : Aggregate.Tick)
             (db : Aggregate.Store) (log : Log),
        Aggregate.collectMetrics (before ++ t :: after) db log
        = Aggregate.collectMetrics after
            (fst (Aggregate.collectCycle t
                    (fst (Aggregate.collectMetrics before db log))))
            (snd (Aggregate.collectMetrics before db log)
             ++ snd (Aggregate.collectCycle t
                       (fst (Aggregate.collectMetrics before db log))))).
Proof.
  split; [|split].
  - intros t db.
    destruct (Aggregate.listNodes t) as [e|items] eqn:Hl.
    + unfold Aggregate.collectCycle. now rewrite Hl.
    + destruct (Aggregate.newClientset t) as [e|] eqn:Hc.
      * unfold Aggregate.collectCycle. now rewrite Hl, Hc.
      * destruct (CollectorFacts.collectCycle_rows t items db Hl Hc)
          as (new & Hrows & Hcols).
        exists new. split; [exact Hrows|]. split; [exact Hcols|].
        apply Forall_map with (f := cols)
          (P := fun m => Aggregate.ClusterCpuUsage m
                         = Float64.percentage (Spec.clusterUsed t items)
                             (Spec.clusterTotal t items)
                         /\ Aggregate.ClusterTotalCpu m
                            = Spec.clusterTotal t items
                         /\ Aggregate.IsBenchmark m = false).
        rewrite Hcols. apply CollectorFacts.stored_shared.
  - intros ticks db log. apply LoopFacts.collectMetrics_written.
  - intros before after t db log. rewrite LoopFacts.collectMetrics_app. simpl.
    destruct (Aggregate.collectCycle t
                (fst (Aggregate.collectMetrics before db log))) as [db' lines].
    reflexivity.
Qed.

(** ** Rows are never updated *)

Module HistoryFacts.
Import Aggregate SqliteFacts.

Lemma wf_resetDB f db : wf db -> wf (fst (resetDB f db)).
Proof.
  intros Hwf. destruct f as [[b|] [d|] [s|] [c|]]; simpl;
    try exact Hwf; apply wf_empty.
Qed.

Lemma wf_startBenchmark e db : wf db -> wf (fst (startBenchmark e db)).
Proof.
  intros Hwf. destruct e as [e|]; simpl; [exact Hwf|].
  now apply BenchmarkFacts.wf_insert_benchmark.
Qed.

Lemma wf_step op db : wf db -> wf (step op db).
Proof.
  destruct op; simpl; intros Hwf.
  - now apply CollectorFacts.wf_collectCycle.
  - exact Hwf.
  - now apply wf_startBenchmark.
  - now apply wf_resetDB.
Qed.

Lemma wf_run history : forall db, wf db -> wf (run history db).
Proof.
  unfold run. induction history as [|op rest IH]; intros db Hwf; simpl;
    [exact Hwf|]. apply IH, wf_step, Hwf.
Qed.

(** Every operation appends rows or, when it is a reset, clears the
    table. *)
Lemma step_appends_or_clears op db :
  (exists added, rows (step op db) = rows db ++ added)
  \/ (is_reset op = true /\ rows (step op db) = []).
Proof.
  destruct op as [t|q sc|e|f]; simpl.
  - left. unfold collectCycle.
    destruct (listNodes t) as [e|items] eqn:Hl;
      [exists []; simpl; now rewrite app_nil_r|].
    destruct (newClientset t) as [e|] eqn:Hc;
      [exists []; simpl; now rewrite app_nil_r|].
    destruct (CollectorFacts.collectCycle_rows t items db Hl Hc)
      as (new & Hrows & _).
    exists new. unfold collectCycle in Hrows. now rewrite Hl, Hc in Hrows.
  - left. exists []. now rewrite app_nil_r.
  - left. destruct e as [e|]; simpl; [exists []; now rewrite app_nil_r|].
    unfold insert_benchmark.
    destruct (rows_insert_all
                (map (fun r => as_benchmark (cols r)) (benchmark_sources db)) db)
      as (new & Hrows & _).
    now exists new.
  - destruct f as [[b|] [d|] [s|] [c|]]; simpl;
      first [ right; split; reflexivity
            | left; exists []; now rewrite app_nil_r ].
Qed.
End HistoryFacts.

(** C8.  Rows are immutable.  After any history of operations starting from
    the fresh table, one more operation either appends rows to the table or,
    when it is a successful reset, clears it; identifiers stay distinct; and
    a row stored under an identifier is still stored under it, with the same
    fields, unless the operation is a reset that cleared the table. *)
Theorem rows_immutable :
  forall (history : list Aggregate.Op) (op : Aggregate.Op),
    let db := Aggregate.run history empty in
    let db' := Aggregate.step op db in
    wf db'
    /\ ((exists added, rows db' = rows db ++ added)
        \/ (Aggregate.is_reset op = true /\ rows db' = []))
    /\ (forall i d,
          lookup i db = Some d ->
          lookup i db' = Some d
          \/ (Aggregate.is_reset op = true /\ rows db' = [])).
Proof.
  intros history op db db'.
  assert (wf db) as Hwf by (apply HistoryFacts.wf_run, SqliteFacts.wf_empty).
  split; [now apply HistoryFacts.wf_step|].
  pose proof (HistoryFacts.step_appends_or_clears op db) as Hstep.
  fold db' in Hstep. split; [exact Hstep|].
  intros i d Hlook. destruct Hstep as [(added & Hrows)|Hreset]; [left|now right].
  destruct db as [rs s]. destruct db' as [rs' s']. simpl in Hrows. subst rs'.
  now apply (SqliteFacts.lookup_app i rs added s s' d).
Qed.

Lemma rows_immutable_witness :
  lookup 1 (Aggregate.run [Aggregate.OpCycle LateNode.tick] empty)
  = Some (Aggregate.sample 20 (Aggregate.mkNodeMetric "a" 500 4096) 1000
            (Float64.percentage 500 1000) 1000)
  /\ lookup 1 (Aggregate.step (Aggregate.OpStartBenchmark None)
                 (Aggregate.run [Aggregate.OpCycle LateNode.tick] empty))
     = Some (Aggregate.sample 20 (Aggregate.mkNodeMetric "a" 500 4096) 1000
               (Float64.percentage 500 1000) 1000).
Proof.
  assert (lookup 1 (Aggregate.run [Aggregate.OpCycle LateNode.tick] empty)
          = Some (Aggregate.sample 20 (Aggregate.mkNodeMetric "a" 500 4096) 1000
                    (Float64.percentage 500 1000) 1000)) as H
    by (vm_compute; reflexivity).
  split; [exact H|].
  destruct (rows_immutable [Aggregate.OpCycle LateNode.tick]
              (Aggregate.OpStartBenchmark None)) as (_ & _ & Hkeep).
  destruct (Hkeep 1 _ H) as [Hsame|[Hreset _]]; [exact Hsame|discriminate].
Defined.

(** ** resetDB of [main.go] *)

Module SimpleFacts.
Import Simple SqliteFacts.

Lemma wf_insertNodes t items :
  forall i db log, wf db -> wf (fst (insertNodes t i items db log)).
Proof.
  induction items as [|n rest IH]; intros i db log Hwf; simpl; [exact Hwf|].
  destruct (insertErr t i) as [e|]; simpl; [now apply IH|].
  apply IH, wf_insert, Hwf.
Qed.

Lemma wf_simple_step op db : wf db -> wf (step op db).
Proof.
  destruct op as [t|e|e]; simpl; intros Hwf.
  - unfold collectCycle. destruct (listNodes t); [exact Hwf|].
    now apply wf_insertNodes.
  - destruct e; simpl; [exact Hwf|]. unfold insert_benchmark.
    now apply wf_insert_all.
  - destruct e; simpl; [exact Hwf|]. now apply wf_delete_all.
Qed.

Lemma wf_simple_run history : forall db, wf db -> wf (run history db).
Proof.
  unfold run. induction history as [|op rest IH]; intros db Hwf; simpl;
    [exact Hwf|]. apply IH, wf_simple_step, Hwf.
Qed.
End SimpleFacts.

(** C9.  [resetDB] of [main.go] is the single statement [DELETE FROM metrics],
    sent outside any transaction: after a successful call the table is empty
    and the sequence entry is what it was, so the next row inserted receives
    the identifier after the largest one ever given; when the table held rows
    that is the identifier after the largest one present, not the initial
    one. *)
Theorem simple_resetDB_keeps_sequence :
  forall (history : list Simple.Op) (d : Simple.MetricsData),
    let db := Simple.run history empty in
    let db' := fst (Simple.resetDB None db) in
    db' = delete_all db
    /\ snd (Simple.resetDB None db) = c_Status StatusOK
    /\ rows db' = []
    /\ seq db' = seq db
    /\ rows (insert d db') = [mkRow (seq_value db + 1) d]
    /\ (rows db <> [] ->
        seq_value db = max_rowid (rows db)
        /\ next_rowid db' = max_rowid (rows db) + 1
        /\ next_rowid db' <> initial_rowid (D := Simple.MetricsData)).
Proof.
  intros history d db db'.
  assert (wf db) as Hwf by (apply SimpleFacts.wf_simple_run, SqliteFacts.wf_empty).
  assert (wf db') as Hwf' by (apply SqliteFacts.wf_delete_all, Hwf).
  pose proof (SqliteFacts.next_rowid_wf db' Hwf') as Hnext.
  change (seq_value db') with (seq_value db) in Hnext.
  repeat (split; [reflexivity|]). split.
  - rewrite SqliteFacts.rows_insert, Hnext. reflexivity.
  - intros Hne. destruct Hwf as (_ & Hall & Hmax & _).
    specialize (Hmax Hne). split; [exact Hmax|]. split; [lia|].
    rewrite Hnext. change (initial_rowid (D := Simple.MetricsData)) with 1.
    destruct (rows db) as [|r rs]; [congruence|].
    inversion Hall as [|? ? Hr _]; subst. lia.
Qed.

Lemma simple_resetDB_keeps_sequence_witness :
  rows SimpleTwoNodes.store <> []
  /\ next_rowid (fst (Simple.resetDB None SimpleTwoNodes.store)) = 3.
Proof.
  assert (rows SimpleTwoNodes.store <> []) as Hne by (vm_compute; discriminate).
  split; [exact Hne|].
  destruct (simple_resetDB_keeps_sequence SimpleTwoNodes.history
              (Simple.mkMetricsData 0 "" 0 0 false))
    as (_ & _ & _ & _ & _ & H).
  destruct (H Hne) as (_ & Hnext & _). exact Hnext.
Defined.

(** ** The properties at concrete inputs *)

Lemma wf_TwoNodes_store : wf TwoNodes.store.
Proof. apply HistoryFacts.wf_run, SqliteFacts.wf_empty. Qed.

Lemma wf_ClockSetBack_store : wf ClockSetBack.store.
Proof. apply HistoryFacts.wf_run, SqliteFacts.wf_empty. Qed.

Lemma startBenchmark_copies_one_row_witness :
  (exists src new,
     Spec.selected TwoNodes.store = Some src
     /\ In src (rows TwoNodes.store)
     /\ Aggregate.IsBenchmark (cols src) = false
     /\ rows (fst (Aggregate.startBenchmark None TwoNodes.store))
        = rows TwoNodes.store ++ [new]
     /\ Aggregate.same_sample (cols new) (cols src)
     /\ Aggregate.IsBenchmark (cols new) = true
     /\ snd (Aggregate.startBenchmark None TwoNodes.store)
        = c_Status StatusCreated)
  /\ Aggregate.startBenchmark None empty = (empty, c_Status StatusCreated).
Proof.
  split.
  - apply (proj1 (startBenchmark_copies_one_row TwoNodes.store
                    wf_TwoNodes_store)).
    eexists. split; [vm_compute; left; reflexivity|reflexivity].
  - apply (proj2 (startBenchmark_copies_one_row empty SqliteFacts.wf_empty)).
    intros r [].
Defined.

Lemma startBenchmark_copies_latest_timestamp_witness :
  exists src,
    rows (fst (Aggregate.startBenchmark None ClockSetBack.store))
    = rows ClockSetBack.store
        ++ [mkRow (next_rowid ClockSetBack.store)
              (Aggregate.as_benchmark (cols src))]
    /\ Aggregate.Timestamp (cols src) = 20.
Proof.
  destruct (startBenchmark_copies_latest_timestamp ClockSetBack.store
              wf_ClockSetBack_store) as (src & Hrows & Hin & _ & Hmax & _).
  { eexists. split; [vm_compute; left; reflexivity|reflexivity]. }
  exists src. split; [exact Hrows|].
  vm_compute in Hin. destruct Hin as [<-|[<-|[]]]; [reflexivity|].
  exfalso.
  assert (In (mkRow 1 (Aggregate.sample 20
                         (Aggregate.mkNodeMetric "a" 500 4096) 1000
                         (Float64.percentage 500 1000) 1000))
             (rows ClockSetBack.store)) as Hin1
    by (vm_compute; left; reflexivity).
  specialize (Hmax _ Hin1 eq_refl). vm_compute in Hmax. apply Hmax. reflexivity.
Defined.

Lemma collectCycle_rows_carry_aggregate_witness :
  exists new,
    rows (fst (Aggregate.collectCycle TwoNodes.tick empty)) = new
    /\ List.length new = 2%nat
    /\ Forall (fun r => Aggregate.ClusterTotalCpu (cols r) = 3000) new
    /\ Float64.within Spec.tolerance (Float64.percentage 1000 3000)
         (Spec.exact_percentage 1000 3000).
Proof.
  destruct (collectCycle_rows_carry_aggregate TwoNodes.tick TwoNodes.items empty)
    as (new & Hrows & Hlen & Hall & Htotal & _ & Hwithin).
  - reflexivity.
  - reflexivity.
  - intros [|[|i]] Hi; reflexivity.
  - intros i Hi; reflexivity.
  - exists new. split; [exact Hrows|]. split; [exact Hlen|]. split.
    + rewrite Htotal in Hall by (vm_compute; split; discriminate).
      clear - Hall. induction Hall as [|r node rs ns Hr _ IH]; constructor.
      * exact (proj2 (proj2 (proj2 (proj2 (proj2 (proj1 Hr)))))).
      * exact IH.
    + apply Hwithin. vm_compute. repeat split; discriminate.
Defined.

Lemma collectCycle_nothing_resolved_writes_nothing_witness :
  fst (Aggregate.collectCycle TwoNodes.unreachable TwoNodes.store)
  = TwoNodes.store.
Proof.
  apply (collectCycle_nothing_resolved_writes_nothing
           TwoNodes.unreachable TwoNodes.store).
  intros items _ i _. eexists. reflexivity.
Defined.

(** The scenario with capacities 1000 and 2000 millicores and 500 millicores
    used on each node: the node percentages are exactly 50 and 25, and the
    cluster percentage of every row is within the tolerance of 100/3. *)
Lemma two_nodes_percentages :
  Forall2 (fun r q => Float64.within 0 (Aggregate.CpuUsage (cols r)) q)
    (rows TwoNodes.store) [50%Q; 25%Q]
  /\ Forall (fun r => Float64.within Spec.tolerance
                        (Aggregate.ClusterCpuUsage (cols r)) (100 # 3))
       (rows TwoNodes.store).
Proof.
  split.
  - vm_compute. repeat constructor; discriminate.
  - vm_compute. repeat constructor; discriminate.
Qed.

(** * Further properties *)

(** ** The percentage at its edges *)

Module PercentageFacts.
Import Float64 Float64Facts.

Lemma digits2_pos_iter_xO (p k : positive) :
  Zpos (digits2_pos (Pos.iter xO p k)) = Zpos (digits2_pos p) + Zpos k.
Proof.
  pose proof (digits2_pos_bounds p) as [Blo Bhi].
  apply digits2_pos_unique. rewrite Zpos_iter_xO.
  assert (0 < 2 ^ Zpos k) by (apply Z.pow_pos_nonneg; lia).
  assert (2 ^ (Zpos (digits2_pos p) + Zpos k - 1)
          = 2 ^ (Zpos (digits2_pos p) - 1) * 2 ^ Zpos k) as ->
    by (rewrite <- Z.pow_add_r by lia; f_equal; lia).
  rewrite Z.pow_add_r by lia.
  split; [apply Z.mul_le_mono_nonneg_r; lia|apply Z.mul_lt_mono_pos_r; lia].
Qed.

(** Every non-zero [int64] converts to a finite float of its sign. *)
Lemma binary_round_finite (s : bool) (p : positive) :
  Zpos p < 2 ^ 64 ->
  exists m e, binary_round prec emax s p 0 = S754_finite s m e.
Proof.
  intros Hp. unfold binary_round, shl_align.
  pose proof (digits2_pos_bounds p) as [Blo Bhi].
  set (d := Zpos (digits2_pos p)) in *.
  assert (1 <= d <= 64) as Hd.
  { split; [unfold d; lia|].
    destruct (Z_le_gt_dec d 64) as [|Hgt]; [assumption|].
    assert (2 ^ 64 <= 2 ^ (d - 1)) by (apply Z.pow_le_mono_r; lia). lia. }
  rewrite fexp_normal by lia.
  replace (d + 0 - 53 - 0) with (d - 53) by lia.
  destruct (d - 53) as [|k|k] eqn:Ek.
  - destruct (binary_round_aux_spec s p 0 loc_Exact) as (m & j & E & _);
      [fold d; lia|fold d; lia|fold d; lia|].
    rewrite E. eauto.
  - destruct (binary_round_aux_spec s p 0 loc_Exact) as (m & j & E & _);
      [fold d; lia|fold d; lia|fold d; lia|].
    rewrite E. eauto.
  - pose proof (digits2_pos_iter_xO p k) as Hdk. fold d in Hdk.
    destruct (binary_round_aux_spec s (Pos.iter xO p k) (d + 0 - 53) loc_Exact)
      as (m & j & E & _); [lia|lia|lia|].
    rewrite E. eauto.
Qed.

Lemma of_int64_zero : of_int64 0 = S754_zero false.
Proof. reflexivity. Qed.

Lemma div_eucl_multiple (a b : Z) : 0 < a -> Z.div_eucl (a * b) a = (b, 0).
Proof.
  intros Ha.
  assert (a * b / a = b) as Hq by (rewrite Z.mul_comm; apply Z.div_mul; lia).
  assert ((a * b) mod a = 0) as Hr by (rewrite Z.mul_comm; apply Z.mod_mul; lia).
  unfold Z.div in Hq. unfold Z.modulo in Hr.
  destruct (Z.div_eucl (a * b) a) as [q r]. simpl in Hq, Hr. now subst.
Qed.

(** A normal float divided by itself is exactly one. *)
Lemma div_self (m : positive) (e : Z) :
  Zpos (digits2_pos m) = 53 -> -52 <= e <= 0 ->
  div (S754_finite false m e) (S754_finite false m e)
  = S754_finite false 4503599627370496 (-52).
Proof.
  intros Hd He. unfold div, SFdiv, SFdiv_core_binary. simpl Zdigits2.
  rewrite Hd.
  replace (53 + e - (53 + e)) with 0 by lia.
  replace (e - e) with 0 by lia.
  change (Z.min (fexp prec emax 0) 0) with (-53).
  change (0 - -53) with 53. cbv iota.
  rewrite Z.shiftl_mul_pow2 by lia.
  rewrite div_eucl_multiple by lia.
  assert (new_location (Zpos m) 0 = loc_Exact) as ->
    by (unfold new_location; destruct (Z.even (Zpos m)); reflexivity).
  reflexivity.
Qed.
End PercentageFacts.

(** X8.  With a capacity of zero the percentage
    [float64(used) / float64(0) * 100] is NaN when nothing is used, and the
    infinity of the sign of the usage otherwise. *)
Theorem percentage_zero_capacity :
  forall used : Z,
    Int64.in_range used ->
    Float64.percentage used 0
    = match used with
      | 0 => S754_nan
      | Zpos _ => S754_infinity false
      | Zneg _ => S754_infinity true
      end.
Proof.
  intros used Hr. unfold Int64.in_range, Int64.min_int, Int64.max_int,
    Int64.half in Hr.
  destruct used as [|p|p]; [reflexivity| |].
  - destruct (PercentageFacts.binary_round_finite false p) as (m & e & E);
      [lia|].
    unfold Float64.percentage.
    change (Float64.of_int64 (Zpos p))
      with (binary_round Float64.prec Float64.emax false p 0).
    rewrite E. reflexivity.
  - destruct (PercentageFacts.binary_round_finite true p) as (m & e & E);
      [lia|].
    unfold Float64.percentage.
    change (Float64.of_int64 (Zneg p))
      with (binary_round Float64.prec Float64.emax true p 0).
    rewrite E. reflexivity.
Qed.

Lemma percentage_zero_capacity_witness :
  Float64.percentage 500 0 = S754_infinity false.
Proof.
  apply (percentage_zero_capacity 500). vm_compute. split; discriminate.
Defined.

(** X9.  An idle node reads exactly zero: with nothing used and any positive
    capacity the percentage is the float [+0]. *)
Theorem percentage_zero_used :
  forall capacity : Z,
    0 < capacity -> Int64.in_range capacity ->
    Float64.percentage 0 capacity = S754_zero false.
Proof.
  intros capacity Hpos Hr. unfold Int64.in_range, Int64.min_int,
    Int64.max_int, Int64.half in Hr.
  destruct capacity as [|p|p]; try lia.
  destruct (PercentageFacts.binary_round_finite false p) as (m & e & E); [lia|].
  unfold Float64.percentage.
  change (Float64.of_int64 (Zpos p))
    with (binary_round Float64.prec Float64.emax false p 0).
  rewrite E. reflexivity.
Qed.

Lemma percentage_zero_used_witness :
  Float64.percentage 0 4000 = S754_zero false.
Proof.
  apply (percentage_zero_used 4000); [reflexivity|].
  vm_compute. split; discriminate.
Defined.

(** X10.  A node that uses all of its capacity reads exactly one hundred,
    whatever the capacity below [2^53]. *)
Theorem percentage_full_utilisation :
  forall capacity : Z,
    0 < capacity < 2 ^ 53 ->
    Float64.percentage capacity capacity = Float64.hundred
    /\ Float64.within 0 (Float64.percentage capacity capacity) 100.
Proof.
  intros capacity Hc. destruct capacity as [|p|p]; try lia.
  destruct (Float64Facts.of_int64_exact p (proj2 Hc))
    as (m & e & E & Hd & He & _).
  assert (Float64.percentage (Zpos p) (Zpos p) = Float64.hundred) as Eq.
  { unfold Float64.percentage. rewrite E.
    rewrite (PercentageFacts.div_self m e Hd He). vm_compute. reflexivity. }
  split; [exact Eq|]. rewrite Eq. vm_compute. discriminate.
Qed.

Lemma percentage_full_utilisation_witness :
  Float64.percentage 3000 3000 = Float64.hundred.
Proof.
  apply (proj1 (percentage_full_utilisation 3000 (conj eq_refl eq_refl))).
Defined.

(** X11.  For positive millicore values below [2^53] the percentage is a
    finite float, and its distance from the exact quotient is at most
    [3 * 2^-52] times that quotient, whatever the ratio of usage to
    capacity. *)
Theorem percentage_relative_tolerance :
  forall used capacity : Z,
    0 < used < 2 ^ 53 -> 0 < capacity < 2 ^ 53 ->
    exists v : Q,
      Float64.to_Q (Float64.percentage used capacity) = Some v
      /\ (Qabs (v - Spec.exact_percentage used capacity)
          <= Spec.exact_percentage used capacity * (3 # 4503599627370496))%Q.
Proof.
  intros used capacity Hu Hc.
  destruct used as [|pu|pu]; try lia. destruct capacity as [|pc|pc]; try lia.
  destruct (Float64Facts.percentage_relative_error pu pc (proj2 Hu) (proj2 Hc))
    as (m & e & E & Herr).
  exists (Float64.F2Q m e). split; [rewrite E; reflexivity|].
  apply Qabs_Qle_condition. exact Herr.
Qed.

Lemma percentage_relative_tolerance_witness :
  exists v : Q,
    Float64.to_Q (Float64.percentage 1000 3000) = Some v
    /\ (Qabs (v - Spec.exact_percentage 1000 3000)
        <= Spec.exact_percentage 1000 3000 * (3 # 4503599627370496))%Q.
Proof.
  apply (percentage_relative_tolerance 1000 3000); vm_compute;
    split; reflexivity.
Defined.

(** ** getMetrics when a call fails *)

Module ScanFacts.
Import Aggregate.

Lemma scanRows_first_error scanErr e rs :
  forall (k i : nat) acc r,
    nth_error rs k = Some r ->
    Scan (scanErr (i + k)%nat) r = inl e ->
    (forall j rj, (j < k)%nat -> nth_error rs j = Some rj ->
                  exists m, Scan (scanErr (i + j)%nat) rj = inr m) ->
    scanRows scanErr i rs acc = inl e.
Proof.
  induction rs as [|r0 rs IH]; intros k i acc r Hk He Hok;
    [destruct k; discriminate|].
  cbn [scanRows]. destruct k as [|k].
  - injection Hk as ->. rewrite Nat.add_0_r in He. now rewrite He.
  - destruct (Hok 0%nat r0) as [m Hm]; [lia|reflexivity|].
    rewrite Nat.add_0_r in Hm. rewrite Hm.
    apply (IH k (S i) _ r); [exact Hk| |].
    + now rewrite Nat.add_succ_comm.
    + intros j rj Hj Hn. rewrite Nat.add_succ_comm.
      apply Hok; [lia|exact Hn].
Qed.
End ScanFacts.

(** X1.  [getMetrics] answers 500 with the error of the call that failed and
    returns no row at all: the error of [db.Query] when the query fails, and
    otherwise the error of the first [rows.Scan] that fails, however many
    rows were scanned before it.  A [Scan] fails with the error reported to
    it, or on a row that holds NULL in a REAL column. *)
Theorem getMetrics_first_failure :
  forall (db : Aggregate.Store) (scanErr : nat -> option string),
    (forall e, Aggregate.getMetrics (Some e) scanErr db
               = c_JSON StatusInternalServerError (error_H e))
    /\ (forall (k : nat) (r : Row Aggregate.MetricsData) (e : string),
          nth_error (Aggregate.select_all db) k = Some r ->
          Aggregate.Scan (scanErr k) r = inl e ->
          (forall j rj, (j < k)%nat ->
             nth_error (Aggregate.select_all db) j = Some rj ->
             exists m, Aggregate.Scan (scanErr j) rj = inr m) ->
          Aggregate.getMetrics None scanErr db
          = c_JSON StatusInternalServerError (error_H e)).
Proof.
  intros db scanErr. split; [reflexivity|].
  intros k r e Hk He Hok. unfold Aggregate.getMetrics.
  now rewrite (ScanFacts.scanRows_first_error scanErr e _ k 0 _ r Hk He Hok).
Qed.

Lemma getMetrics_first_failure_witness :
  Aggregate.getMetrics None
    (fun i => match i with 1%nat => Some "bad row"%string | _ => None end)
    TwoNodes.store
  = c_JSON StatusInternalServerError (error_H "bad row").
Proof.
  eapply (proj2 (getMetrics_first_failure TwoNodes.store _) 1%nat).
  - vm_compute. reflexivity.
  - reflexivity.
  - intros [|j] rj Hj Hn; [|lia].
    vm_compute in Hn. injection Hn as <-.
    eexists. vm_compute. reflexivity.
Defined.

(** ** getMetrics on rows that hold no number *)

Module ReadBackFacts.
Import Aggregate SqliteFacts Spec.


Lemma Scan_not_null r :
  null_row r = false -> Scan None r = inr (cols r).
Proof.
  unfold null_row, Scan. intros H.
  apply orb_false_elim in H as [-> ->]. reflexivity.
Qed.



Lemma scanRows_not_null rs :
  Forall (fun r => null_row r = false) rs ->
  forall i acc,
    scanRows (fun _ => None) i rs acc
    = inr (fold_left (fun s r => GoSlice.append s (cols r)) rs acc).
Proof.
  induction 1 as [|r rs Hr _ IH]; intros i acc; cbn [scanRows fold_left];
    [reflexivity|].
  rewrite (Scan_not_null r Hr). apply IH.
Qed.

Lemma marshal_fails_append s m :
  marshal_fails (GoSlice.append s m) = marshal_fails s || unsupported_value m.
Proof.
  destruct s as [l|]; simpl.
  - rewrite existsb_app. simpl. now rewrite orb_false_r.
  - now rewrite orb_false_r.
Qed.

Lemma marshal_fails_scanned rs :
  forall acc,
    marshal_fails (fold_left (fun s r => GoSlice.append s (cols r)) rs acc)
    = marshal_fails acc || existsb (fun r => negb (finite_row r)) rs.
Proof.
  induction rs as [|r rs IH]; intros acc; simpl.
  - now rewrite orb_false_r.
  - rewrite IH, marshal_fails_append, <- orb_assoc. f_equal. f_equal.
    unfold unsupported_value, finite_row. now rewrite negb_andb.
Qed.

Lemma select_all_Exists (P : Row MetricsData -> Prop) db :
  Exists P (rows db) -> Exists P (select_all db).
Proof.
  intros H. apply Exists_exists in H as (r & Hin & Hr).
  apply Exists_exists. exists r. split; [|exact Hr].
  eapply Permutation_in; [|exact Hin]. apply order_by_desc_perm.
Qed.

Lemma select_all_Forall (P : Row MetricsData -> Prop) db :
  Forall P (rows db) -> Forall P (select_all db).
Proof.
  intros H. eapply Permutation_Forall; [|exact H]. apply order_by_desc_perm.
Qed.
End ReadBackFacts.



(** X17.  On a table without NULL whose rows include an infinite percentage
    (a node that reports a capacity of zero while it uses CPU), and with no
    database error, [getMetrics] scans every row and [c.JSON] cannot encode
    the slice: the answer is 200 with an empty body. *)
Theorem getMetrics_infinite_row_empty_body :
  forall db : Aggregate.Store,
    Forall (fun r => Spec.null_row r = false) (rows db) ->
    Exists (fun r => Spec.finite_row r = false) (rows db) ->
    Aggregate.getMetrics None (fun _ => None) db = mkResponse StatusOK None.
Proof.
  intros db Hnn Hinf.
  apply ReadBackFacts.select_all_Forall in Hnn.
  apply ReadBackFacts.select_all_Exists in Hinf.
  unfold Aggregate.getMetrics.
  rewrite (ReadBackFacts.scanRows_not_null _ Hnn).
  unfold Aggregate.c_JSON_metrics.
  rewrite ReadBackFacts.marshal_fails_scanned.
  replace (existsb (fun r => negb (Spec.finite_row r))
             (Aggregate.select_all db)) with true; [reflexivity|].
  symmetry. apply existsb_exists.
  apply Exists_exists in Hinf as (r & Hin & Hr).
  exists r. split; [exact Hin|]. now rewrite Hr.
Qed.

Lemma getMetrics_infinite_row_empty_body_witness :
  Aggregate.getMetrics None (fun _ => None) ZeroCapacity.store
  = mkResponse StatusOK None.
Proof.
  apply (getMetrics_infinite_row_empty_body ZeroCapacity.store).
  - vm_compute. repeat constructor.
  - vm_compute. apply Exists_cons_hd. reflexivity.
Defined.

(** ** startBenchmark, repeated *)

Module SnapshotFacts.
Import Aggregate SqliteFacts Spec.

Lemma selected_after_snapshot db d :
  selected (insert (as_benchmark d) db) = selected db.
Proof.
  unfold selected. rewrite rows_insert, filter_app. simpl.
  now rewrite app_nil_r.
Qed.

Lemma startBenchmark_selected db src :
  wf db -> selected db = Some src ->
  fst (startBenchmark None db) = insert (as_benchmark (cols src)) db.
Proof.
  intros Hwf E. simpl.
  now rewrite (BenchmarkFacts.insert_benchmark_selected db Hwf), E.
Qed.

(** Appending rows flagged as organic keeps the sources of the benchmark
    rows. *)
Lemma sources_kept_by_organic_rows (db db' : Store) new :
  benchmarks_have_sources db ->
  rows db' = rows db ++ new ->
  Forall (fun r => IsBenchmark (cols r) = false) new ->
  benchmarks_have_sources db'.
Proof.
  intros Hinv Hrows Hnew r Hin Hb. rewrite Hrows in Hin.
  apply in_app_or in Hin. destruct Hin as [Hin|Hin].
  - destruct (Hinv r Hin Hb) as (src & Hs & Hrest).
    exists src. split; [|exact Hrest]. rewrite Hrows. apply in_or_app. now left.
  - rewrite Forall_forall in Hnew. rewrite (Hnew r Hin) in Hb. discriminate.
Qed.

Lemma sources_kept_by_snapshot (db : Store) src :
  wf db -> benchmarks_have_sources db ->
  In src (rows db) -> IsBenchmark (cols src) = false ->
  benchmarks_have_sources (insert (as_benchmark (cols src)) db).
Proof.
  intros Hwf Hinv Hsrc Horg r Hin Hb. rewrite rows_insert in Hin.
  apply in_app_or in Hin. destruct Hin as [Hin|[<-|[]]].
  - destruct (Hinv r Hin Hb) as (s & Hs & Hrest).
    exists s. split; [|exact Hrest]. rewrite rows_insert.
    apply in_or_app. now left.
  - exists src. split; [rewrite rows_insert; apply in_or_app; now left|].
    split; [exact Horg|]. split; [repeat split|].
    simpl. rewrite (next_rowid_wf db Hwf).
    destruct Hwf as (_ & Hall & _). rewrite Forall_forall in Hall.
    specialize (Hall src Hsrc). lia.
Qed.

Lemma sources_kept_by_step op db :
  wf db -> benchmarks_have_sources db -> benchmarks_have_sources (step op db).
Proof.
  intros Hwf Hinv. destruct op as [t|q sc|e|f]; simpl.
  - unfold collectCycle.
    destruct (listNodes t) as [e|items] eqn:Hl; [exact Hinv|].
    destruct (newClientset t) as [e|] eqn:Hc; [exact Hinv|].
    destruct (CollectorFacts.collectCycle_rows t items db Hl Hc)
      as (new & Hrows & Hcols).
    unfold collectCycle in Hrows. rewrite Hl, Hc in Hrows.
    apply (sources_kept_by_organic_rows db _ new Hinv Hrows).
    apply Forall_map with (f := cols)
      (P := fun m => IsBenchmark m = false).
    rewrite Hcols.
    eapply Forall_impl; [|apply CollectorFacts.stored_shared].
    simpl. intros m (_ & _ & Hm). exact Hm.
  - exact Hinv.
  - destruct e as [e|]; simpl; [exact Hinv|].
    rewrite (BenchmarkFacts.insert_benchmark_selected db Hwf).
    destruct (selected db) as [src|] eqn:E; [|exact Hinv].
    destruct (BenchmarkFacts.selected_spec db src E) as (Hin & Hb & _).
    now apply sources_kept_by_snapshot.
  - destruct f as [[b|] [d|] [s|] [c|]]; simpl; try exact Hinv.
    intros r [].
Qed.
End SnapshotFacts.

(** X2.  A second [startBenchmark] copies the same row again: benchmark rows
    are never selected, so two successive calls append two rows with the
    same sample, both flagged, under the next two identifiers. *)
Theorem startBenchmark_twice_copies_same_row :
  forall db : Aggregate.Store,
    wf db ->
    (exists r, In r (rows db) /\ Aggregate.IsBenchmark (cols r) = false) ->
    exists src,
      In src (rows db)
      /\ Aggregate.IsBenchmark (cols src) = false
      /\ rows (fst (Aggregate.startBenchmark None
                      (fst (Aggregate.startBenchmark None db))))
         = rows db
           ++ [mkRow (seq_value db + 1) (Aggregate.as_benchmark (cols src));
               mkRow (seq_value db + 2) (Aggregate.as_benchmark (cols src))].
Proof.
  intros db Hwf (r0 & Hin0 & Hb0).
  destruct (BenchmarkFacts.selected_some db r0 Hin0 Hb0) as (src & E).
  destruct (BenchmarkFacts.selected_spec db src E) as (Hin & Hb & _).
  exists src. split; [exact Hin|]. split; [exact Hb|].
  rewrite (SnapshotFacts.startBenchmark_selected db src Hwf E).
  set (d := Aggregate.as_benchmark (cols src)).
  assert (wf (insert d db)) as Hwf1 by now apply SqliteFacts.wf_insert.
  rewrite (SnapshotFacts.startBenchmark_selected (insert d db) src Hwf1)
    by (unfold d; now rewrite SnapshotFacts.selected_after_snapshot).
  fold d. rewrite !SqliteFacts.rows_insert, <- app_assoc. simpl.
  rewrite (SqliteFacts.next_rowid_wf _ Hwf1), SqliteFacts.seq_value_insert.
  rewrite (SqliteFacts.next_rowid_wf db Hwf).
  replace (seq_value db + 1 + 1) with (seq_value db + 2) by lia.
  reflexivity.
Qed.

Lemma startBenchmark_twice_copies_same_row_witness :
  exists src,
    In src (rows TwoNodes.store)
    /\ Aggregate.IsBenchmark (cols src) = false
    /\ rows (fst (Aggregate.startBenchmark None
                    (fst (Aggregate.startBenchmark None TwoNodes.store))))
       = rows TwoNodes.store
         ++ [mkRow (seq_value TwoNodes.store + 1)
               (Aggregate.as_benchmark (cols src));
             mkRow (seq_value TwoNodes.store + 2)
               (Aggregate.as_benchmark (cols src))].
Proof.
  apply (startBenchmark_twice_copies_same_row TwoNodes.store wf_TwoNodes_store).
  eexists. split; [vm_compute; left; reflexivity|reflexivity].
Defined.

(** X3.  Benchmark rows always have their source beside them: after any
    history of cycles, reads, snapshots and resets from the fresh table,
    every row flagged as benchmark has the same sample as a row flagged as
    organic that is still in the table and was inserted before it. *)
Theorem benchmark_rows_have_sources :
  forall history : list Aggregate.Op,
    Spec.benchmarks_have_sources (Aggregate.run history empty).
Proof.
  intros history. induction history as [|op history IH] using rev_ind.
  - intros r [].
  - unfold Aggregate.run. rewrite fold_left_app. simpl.
    apply SnapshotFacts.sources_kept_by_step; [|exact IH].
    apply HistoryFacts.wf_run, SqliteFacts.wf_empty.
Qed.

(** ** What a cycle logs and how it numbers its rows *)

Module CycleFacts.
Import Aggregate SqliteFacts Spec.

Lemma secondPass_log t pct total items :
  forall i db log,
    snd (secondPass t i items pct total db log)
    = log ++ insert_errors t i items.
Proof.
  induction items as [|nm rest IH]; intros i db log; simpl.
  - now rewrite app_nil_r.
  - destruct (getNodeSecond t i) as [err|cap]; [apply IH|].
    destruct (insertErr t i) as [e|]; simpl; [|apply IH].
    rewrite IH. unfold Printf. simpl. now rewrite <- app_assoc.
Qed.

Lemma secondPass_ids t pct total items :
  forall i db log,
    wf db ->
    exists new,
      rows (fst (secondPass t i items pct total db log)) = rows db ++ new
      /\ map id new = consecutive (seq_value db + 1) (List.length new)
      /\ seq_value (fst (secondPass t i items pct total db log))
         = seq_value db + Z.of_nat (List.length new).
Proof.
  induction items as [|nm rest IH]; intros i db log Hwf; simpl.
  - exists []. rewrite app_nil_r. simpl. repeat split. lia.
  - destruct (getNodeSecond t i) as [err|cap]; [now apply IH|].
    destruct (insertErr t i) as [e|]; simpl; [now apply IH|].
    set (m := sample (timeNow t i) nm cap pct total).
    destruct (IH (S i) (insert m db) log (wf_insert m db Hwf))
      as (new & Hrows & Hids & Hseq).
    rewrite seq_value_insert, (next_rowid_wf db Hwf) in Hids, Hseq.
    exists (mkRow (next_rowid db) m :: new). split; [|split].
    + rewrite Hrows, rows_insert, <- app_assoc. reflexivity.
    + simpl. rewrite Hids, (next_rowid_wf db Hwf). reflexivity.
    + rewrite Hseq. simpl List.length. lia.
Qed.

Lemma collectCycle_ids t db :
  wf db ->
  exists new,
    rows (fst (collectCycle t db)) = rows db ++ new
    /\ map id new = consecutive (seq_value db + 1) (List.length new)
    /\ seq_value (fst (collectCycle t db))
       = seq_value db + Z.of_nat (List.length new).
Proof.
  intros Hwf. unfold collectCycle.
  destruct (listNodes t) as [e|items].
  { exists []. simpl. rewrite app_nil_r. repeat split. lia. }
  destruct (newClientset t) as [e|].
  { exists []. simpl. rewrite app_nil_r. repeat split. lia. }
  rewrite CollectorFacts.firstPass_from_zero. now apply secondPass_ids.
Qed.

Lemma serveAll_reads reqs :
  forall db, existsb writes reqs = false -> serveAll reqs db = db.
Proof.
  induction reqs as [|req rest IH]; intros db H; [reflexivity|].
  simpl in H. apply orb_false_elim in H as [Hreq Hrest].
  destruct req; try discriminate. simpl. now apply IH.
Qed.

Lemma secondPassBeside_reads t arrivals pct total items :
  reads_only arrivals ->
  forall i db log,
    secondPassBeside t arrivals i items pct total db log
    = secondPass t i items pct total db log.
Proof.
  intros Hreads.
  induction items as [|nm rest IH]; intros i db log; [reflexivity|].
  cbn [secondPassBeside secondPass].
  rewrite (serveAll_reads _ db (Hreads i)).
  destruct (getNodeSecond t i) as [err|cap]; [apply IH|].
  destruct (Exec _ (insertErr t i) db) as [db' err]. apply IH.
Qed.

Lemma collectCycleBeside_reads t arrivals db :
  reads_only arrivals -> collectCycleBeside t arrivals db = collectCycle t db.
Proof.
  intros Hreads. unfold collectCycleBeside, collectCycle.
  destruct (listNodes t) as [e|items]; [reflexivity|].
  destruct (newClientset t) as [e|]; [reflexivity|].
  destruct (firstPass (getNodeFirst t) 0 items 0 0 []) as [[total used] log].
  now apply secondPassBeside_reads.
Qed.

(** A snapshot handled between the two inserts of a cycle takes the
    identifier between those of the two rows of the cycle. *)
Lemma snapshot_between_inserts :
  map (fun r => (id r, NodeName (cols r), IsBenchmark (cols r)))
    (rows (fst (collectCycleBeside TwoNodes.tick DuringCycle.snapshot empty)))
  = [(1, "a"%string, false); (2, "a"%string, true); (3, "b"%string, false)].
Proof. vm_compute. reflexivity. Qed.

(** A reset handled between the two inserts of a cycle removes the first
    row; the second is then written under the identifier 1. *)
Lemma reset_between_inserts :
  map (fun r => (id r, NodeName (cols r), ClusterTotalCpu (cols r)))
    (rows (fst (collectCycleBeside TwoNodes.tick DuringCycle.reset empty)))
  = [(1, "b"%string, 3000)].
Proof. vm_compute. reflexivity. Qed.

Lemma collectCycle_not_ok t db :
  listing_ok t = false -> collectCycle t db = (db, snd (collectCycle t db)).
Proof.
  unfold listing_ok, collectCycle.
  destruct (listNodes t) as [e|items]; [reflexivity|].
  destruct (newClientset t) as [e|]; [reflexivity|discriminate].
Qed.

Lemma collectMetrics_store_without_failed ticks :
  forall db log log',
    fst (collectMetrics ticks db log)
    = fst (collectMetrics (filter listing_ok ticks) db log').
Proof.
  induction ticks as [|t rest IH]; intros db log log'; simpl; [reflexivity|].
  destruct (listing_ok t) eqn:Hok; simpl.
  - destruct (collectCycle t db) as [db' lines]. apply IH.
  - rewrite (collectCycle_not_ok t db Hok). apply IH.
Qed.
End CycleFacts.

(** X4.  A cycle that gets past the listing logs one line for every capacity
    lookup that failed in the first loop, then one line for every insert
    that failed; a capacity lookup that fails in the second loop drops the
    node without a line. *)
Theorem collectCycle_log_lines :
  forall (t : Aggregate.Tick) (items : list Aggregate.NodeMetric)
         (db : Aggregate.Store),
    Aggregate.listNodes t = inr items ->
    Aggregate.newClientset t = None ->
    snd (Aggregate.collectCycle t db)
    = Spec.lookup_errors (Aggregate.getNodeFirst t) 0 items
      ++ Spec.insert_errors t 0 items.
Proof.
  intros t items db Hl Hc. unfold Aggregate.collectCycle.
  rewrite Hl, Hc, CollectorFacts.firstPass_from_zero.
  apply CycleFacts.secondPass_log.
Qed.

Lemma collectCycle_log_lines_witness :
  snd (Aggregate.collectCycle Flaky.tick empty)
  = ["Error getting node info: timeout";
     "Error inserting metrics: disk full"]%string
  /\ map (fun r => Aggregate.NodeName (cols r))
       (rows (fst (Aggregate.collectCycle Flaky.tick empty))) = ["a"%string].
Proof.
  split.
  - rewrite (collectCycle_log_lines Flaky.tick Flaky.items empty eq_refl eq_refl).
    reflexivity.
  - vm_compute. reflexivity.
Defined.

(** X5.  A cycle during which no handler writes numbers its rows
    consecutively.  The handlers run beside the collector, and a request may
    be handled between two inserts of a cycle; when those requests only read,
    then on a table with distinct identifiers the rows the cycle appends
    receive the identifiers that follow the recorded sequence, one after the
    other in the order of the inserts, and the sequence advances by the
    number of rows written. *)
Theorem collectCycle_ids_consecutive :
  forall (t : Aggregate.Tick) (arrivals : nat -> list Aggregate.Request)
         (db : Aggregate.Store),
    wf db ->
    Spec.reads_only arrivals ->
    exists new,
      rows (fst (Aggregate.collectCycleBeside t arrivals db)) = rows db ++ new
      /\ map id new = Spec.consecutive (seq_value db + 1) (List.length new)
      /\ seq_value (fst (Aggregate.collectCycleBeside t arrivals db))
         = seq_value db + Z.of_nat (List.length new).
Proof.
  intros t arrivals db Hwf Hreads.
  rewrite (CycleFacts.collectCycleBeside_reads t arrivals db Hreads).
  now apply CycleFacts.collectCycle_ids.
Qed.

Lemma collectCycle_ids_consecutive_witness :
  exists new,
    rows (fst (Aggregate.collectCycleBeside TwoNodes.tick DuringCycle.read
                 TwoNodes.store))
    = rows TwoNodes.store ++ new
    /\ map id new
       = Spec.consecutive (seq_value TwoNodes.store + 1) (List.length new)
    /\ seq_value (fst (Aggregate.collectCycleBeside TwoNodes.tick
                         DuringCycle.read TwoNodes.store))
       = seq_value TwoNodes.store + Z.of_nat (List.length new).
Proof.
  apply (collectCycle_ids_consecutive TwoNodes.tick DuringCycle.read
           TwoNodes.store wf_TwoNodes_store).
  intros [|[|i]]; reflexivity.
Defined.

(** X6.  After a successful [resetDB] handled while no cycle is running the
    table is as new: [getMetrics] answers 200 with [null], and a cycle that
    starts next, during which no handler writes, numbers its rows from 1
    again. *)
Theorem reset_then_collect_restarts :
  forall (db : Aggregate.Store) (t : Aggregate.Tick)
         (arrivals : nat -> list Aggregate.Request)
         (scanErr : nat -> option string),
    Spec.reads_only arrivals ->
    let db0 := fst (Aggregate.resetDB
                      (Aggregate.mkResetErrors None None None None) db) in
    Aggregate.getMetrics None scanErr db0 = c_JSON StatusOK JNull
    /\ map id (rows (fst (Aggregate.collectCycleBeside t arrivals db0)))
       = Spec.consecutive 1
           (List.length
              (rows (fst (Aggregate.collectCycleBeside t arrivals db0)))).
Proof.
  intros db t arrivals scanErr Hreads db0. split; [reflexivity|].
  change db0 with (@empty Aggregate.MetricsData).
  rewrite (CycleFacts.collectCycleBeside_reads t arrivals empty Hreads).
  destruct (CycleFacts.collectCycle_ids t empty SqliteFacts.wf_empty)
    as (new & Hrows & Hids & _).
  simpl in Hrows. rewrite Hrows. exact Hids.
Qed.

Lemma reset_then_collect_restarts_witness :
  let db0 := fst (Aggregate.resetDB
                    (Aggregate.mkResetErrors None None None None)
                    TwoNodes.store) in
  Aggregate.getMetrics None (fun _ => None) db0 = c_JSON StatusOK JNull
  /\ map id (rows (fst (Aggregate.collectCycleBeside TwoNodes.tick
                          DuringCycle.read db0)))
     = Spec.consecutive 1
         (List.length
            (rows (fst (Aggregate.collectCycleBeside TwoNodes.tick
                          DuringCycle.read db0)))).
Proof.
  apply (reset_then_collect_restarts TwoNodes.store TwoNodes.tick
           DuringCycle.read (fun _ => None)).
  intros [|[|i]]; reflexivity.
Defined.

(** X7.  A tick whose listing or client creation fails leaves no trace in the
    store: the store after any sequence of ticks is the store after the
    ticks that got past those two calls. *)
Theorem collectMetrics_failed_ticks_leave_gaps_only :
  forall (ticks : list Aggregate.Tick) (db : Aggregate.Store),
    fst (Aggregate.collectMetrics ticks db [])
    = fst (Aggregate.collectMetrics (filter Spec.listing_ok ticks) db []).
Proof.
  intros ticks db. apply CycleFacts.collectMetrics_store_without_failed.
Qed.

(** ** The handlers and the collector of [main.go] *)

Module SimpleMoreFacts.
Import Simple SqliteFacts SimpleSpec.

Lemma insertNodes_rows t items :
  forall i db log,
    exists new,
      rows (fst (insertNodes t i items db log)) = rows db ++ new
      /\ map cols new = stored t i items
      /\ snd (insertNodes t i items db log) = log ++ insert_errors t i items.
Proof.
  induction items as [|node rest IH]; intros i db log; simpl.
  - exists []. now rewrite !app_nil_r.
  - destruct (insertErr t i) as [e|]; simpl.
    + destruct (IH (S i) db (Printf log "Error inserting metrics: " e))
        as (new & Hrows & Hcols & Hlog).
      exists new. split; [exact Hrows|]. split; [exact Hcols|].
      rewrite Hlog. unfold Printf. simpl. now rewrite <- app_assoc.
    + set (m := mkMetricsData (timeNow t i) (Name node) (UsageCpuMilli node)
                  (UsageMemory node) false).
      destruct (IH (S i) (insert m db) log) as (new & Hrows & Hcols & Hlog).
      exists (mkRow (next_rowid db) m :: new). split; [|split].
      * rewrite Hrows, rows_insert, <- app_assoc. reflexivity.
      * simpl. now rewrite Hcols.
      * exact Hlog.
Qed.

(** Rows added to a table with distinct identifiers get identifiers above
    the recorded sequence. *)
Lemma insert_fresh {D : Type} (d : D) (db : DB D) :
  wf db ->
  seq_value db <= seq_value (insert d db)
  /\ forall r, In r (rows (insert d db)) ->
               In r (rows db) \/ seq_value db < id r.
Proof.
  intros Hwf. rewrite seq_value_insert, (next_rowid_wf db Hwf).
  split; [lia|]. intros r Hin. rewrite rows_insert in Hin.
  apply in_app_or in Hin. destruct Hin as [Hin|[<-|[]]]; [now left|].
  right. simpl. rewrite (next_rowid_wf db Hwf). lia.
Qed.

Lemma fresh_trans {D : Type} (db db1 db2 : DB D) :
  (seq_value db <= seq_value db1
   /\ forall r, In r (rows db1) -> In r (rows db) \/ seq_value db < id r) ->
  (seq_value db1 <= seq_value db2
   /\ forall r, In r (rows db2) -> In r (rows db1) \/ seq_value db1 < id r) ->
  seq_value db <= seq_value db2
  /\ forall r, In r (rows db2) -> In r (rows db) \/ seq_value db < id r.
Proof.
  intros [H1 F1] [H2 F2]. split; [lia|]. intros r Hin.
  destruct (F2 r Hin) as [Hin1|Hlt]; [exact (F1 r Hin1)|right; lia].
Qed.

Lemma insert_all_fresh {D : Type} (ds : list D) :
  forall db : DB D,
    wf db ->
    seq_value db <= seq_value (insert_all ds db)
    /\ forall r, In r (rows (insert_all ds db)) ->
                 In r (rows db) \/ seq_value db < id r.
Proof.
  induction ds as [|d ds IH]; intros db Hwf; simpl.
  - split; [lia|]. intros r Hin. now left.
  - apply (fresh_trans db (insert d db)); [now apply insert_fresh|].
    apply IH, wf_insert, Hwf.
Qed.

Lemma insertNodes_fresh t items :
  forall i db log,
    wf db ->
    seq_value db <= seq_value (fst (insertNodes t i items db log))
    /\ forall r, In r (rows (fst (insertNodes t i items db log))) ->
                 In r (rows db) \/ seq_value db < id r.
Proof.
  induction items as [|node rest IH]; intros i db log Hwf; simpl.
  - split; [lia|]. intros r Hin. now left.
  - destruct (insertErr t i) as [e|]; simpl; [now apply IH|].
    set (m := mkMetricsData (timeNow t i) (Name node) (UsageCpuMilli node)
                (UsageMemory node) false).
    apply (fresh_trans db (insert m db)); [now apply insert_fresh|].
    apply IH, wf_insert, Hwf.
Qed.

Lemma step_fresh op db :
  wf db ->
  seq_value db <= seq_value (step op db)
  /\ forall r, In r (rows (step op db)) ->
               In r (rows db) \/ seq_value db < id r.
Proof.
  intros Hwf. destruct op as [t|e|e]; simpl.
  - unfold collectCycle. destruct (listNodes t) as [err|items]; simpl.
    + split; [lia|]. intros r Hin. now left.
    + now apply insertNodes_fresh.
  - destruct e as [e|]; simpl.
    + split; [lia|]. intros r Hin. now left.
    + unfold insert_benchmark. now apply insert_all_fresh.
  - destruct e as [e|]; simpl.
    + split; [lia|]. intros r Hin. now left.
    + split; [unfold seq_value; simpl; lia|]. intros r [].
Qed.

Lemma simple_scanRows_no_error i rs acc :
  scanRows (fun _ => None) i rs (Some acc) = inr (Some (acc ++ map cols rs)).
Proof.
  revert i acc; induction rs as [|r rs IH]; intros i acc; simpl.
  - now rewrite app_nil_r.
  - rewrite IH, <- app_assoc. reflexivity.
Qed.

Lemma simple_getMetrics_no_error db :
  getMetrics None (fun _ => None) db
  = c_JSON StatusOK (rows_json (select_all db)).
Proof.
  unfold getMetrics. destruct (select_all db) as [|r rs]; [reflexivity|].
  simpl. rewrite simple_scanRows_no_error. simpl. unfold rows_json.
  now rewrite map_map.
Qed.
End SimpleMoreFacts.

(** X12.  The collector of [main.go] stores the raw millicore usage.  When the
    listing fails the store is untouched and one line is logged; otherwise
    the rows appended are exactly the samples of the nodes whose insert
    succeeded, in order and flagged as organic, and one line is logged for
    every insert that failed. *)
Theorem simple_collectCycle_rows :
  forall (t : Simple.Tick) (db : Simple.Store),
    match Simple.listNodes t with
    | inl e =>
        Simple.collectCycle t db
        = (db, [String.append "Error collecting metrics: " e])
    | inr items =>
        exists new,
          rows (fst (Simple.collectCycle t db)) = rows db ++ new
          /\ map cols new = SimpleSpec.stored t 0 items
          /\ snd (Simple.collectCycle t db) = SimpleSpec.insert_errors t 0 items
    end.
Proof.
  intros t db. unfold Simple.collectCycle.
  destruct (Simple.listNodes t) as [e|items]; [reflexivity|].
  destruct (SimpleMoreFacts.insertNodes_rows t items 0 db [])
    as (new & Hrows & Hcols & Hlog).
  exists new. repeat split; assumption.
Qed.

(** X13.  [startBenchmark] of [main.go] does not look at the flag: on a table
    with distinct identifiers that holds any row at all it appends one
    flagged copy of a row of greatest timestamp, and on an empty table it
    inserts nothing; both answer 201. *)
Theorem simple_startBenchmark_copies_latest :
  forall db : Simple.Store,
    wf db ->
    (rows db = [] -> Simple.startBenchmark None db = (db, c_Status StatusCreated))
    /\ (rows db <> [] ->
        exists src,
          In src (rows db)
          /\ (forall r, In r (rows db) ->
                        Simple.Timestamp (cols r) <= Simple.Timestamp (cols src))
          /\ Simple.startBenchmark None db
             = (insert (Simple.as_benchmark (cols src)) db,
                c_Status StatusCreated)).
Proof.
  intros db Hwf. unfold Simple.startBenchmark. simpl.
  unfold Simple.insert_benchmark, Simple.benchmark_source_ids, limit.
  split.
  - intros ->. reflexivity.
  - intros Hne.
    destruct (order_by_desc (fun r => Simple.Timestamp (cols r)) (rows db))
      as [|src rest] eqn:Eo.
    { apply SqliteFacts.order_by_desc_nil in Eo. contradiction. }
    destruct (SqliteFacts.order_by_desc_head _ _ _ _ Eo) as [Hin Hmax].
    exists src. split; [exact Hin|]. split; [exact Hmax|].
    simpl. rewrite (SqliteFacts.where_id_in_single (rows db) src (proj1 Hwf) Hin).
    reflexivity.
Qed.

Lemma wf_SimpleTwoNodes_store : wf SimpleTwoNodes.store.
Proof. apply SimpleFacts.wf_simple_run, SqliteFacts.wf_empty. Qed.

Lemma simple_startBenchmark_copies_latest_witness :
  Simple.startBenchmark None empty = (empty, c_Status StatusCreated)
  /\ exists src,
       In src (rows SimpleTwoNodes.store)
       /\ (forall r, In r (rows SimpleTwoNodes.store) ->
                     Simple.Timestamp (cols r) <= Simple.Timestamp (cols src))
       /\ Simple.startBenchmark None SimpleTwoNodes.store
          = (insert (Simple.as_benchmark (cols src)) SimpleTwoNodes.store,
             c_Status StatusCreated).
Proof.
  split.
  - apply (proj1 (simple_startBenchmark_copies_latest empty SqliteFacts.wf_empty)).
    reflexivity.
  - apply (proj2 (simple_startBenchmark_copies_latest SimpleTwoNodes.store
                    wf_SimpleTwoNodes_store)).
    vm_compute. discriminate.
Defined.

(** X14.  In [main.go] an identifier is never given twice: after any history
    from the fresh table, whatever the next operation is, the recorded
    sequence does not go down, and every row in the table afterwards either
    was there before or has an identifier above every identifier given so
    far. *)
Theorem simple_identifiers_never_reused :
  forall (history : list Simple.Op) (op : Simple.Op),
    let db := Simple.run history empty in
    let db' := Simple.step op db in
    seq_value db <= seq_value db'
    /\ forall r, In r (rows db') -> In r (rows db) \/ seq_value db < id r.
Proof.
  intros history op db db'. apply SimpleMoreFacts.step_fresh.
  apply SimpleFacts.wf_simple_run, SqliteFacts.wf_empty.
Qed.

Lemma simple_identifiers_never_reused_witness :
  In (mkRow 3 (Simple.mkMetricsData 20 "a" 500 4096 false))
     (rows (Simple.run (SimpleTwoNodes.history ++ [Simple.OpResetDB None])
              empty))
  \/ seq_value (Simple.run (SimpleTwoNodes.history ++ [Simple.OpResetDB None])
                  empty) < 3.
Proof.
  apply (proj2 (simple_identifiers_never_reused
                  (SimpleTwoNodes.history ++ [Simple.OpResetDB None])
                  (Simple.OpCycle SimpleTwoNodes.tick))
           (mkRow 3 (Simple.mkMetricsData 20 "a" 500 4096 false))).
  vm_compute. left. reflexivity.
Defined.

(** X15.  [getMetrics] of [main.go] returns every stored row, ordered by
    timestamp descending; with no database error the answer is 200 and its
    body holds the rows in that order, or [null] when there is none. *)
Theorem simple_getMetrics_all_rows :
  forall db : Simple.Store,
    Permutation (rows db) (Simple.select_all db)
    /\ StronglySorted (key_desc (fun r => Simple.Timestamp (cols r)))
         (Simple.select_all db)
    /\ Simple.getMetrics None (fun _ => None) db
       = c_JSON StatusOK (SimpleSpec.rows_json (Simple.select_all db)).
Proof.
  intros db. split; [|split].
  - apply SqliteFacts.order_by_desc_perm.
  - apply SqliteFacts.order_by_desc_sorted.
  - apply SimpleMoreFacts.simple_getMetrics_no_error.
Qed.
